(** * mc-rcon: the RCON packet codec, login check, frame receiver and
      interactive loop of [mc-rcon.go], embedded in Rocq.

    Conventions of the embedding:
    - an [int32] is a [Z]; conversions wrap explicitly ([int32], [uint32]);
    - a [[]byte] and a Go [string] are [list byte];
    - a Go slice value carries the bytes up to its length and the bytes
      of its backing array between length and capacity ([slice]);
    - a run-time panic is the [Panics] outcome;
    - the TCP connection is a script of the results its [Write] and [Read]
      calls will produce. *)

From Stdlib Require Import String Strings.Byte.
From Stdlib Require Import ZArith List Lia Bool.
From coqutil Require Import Z.bitblast.
Import ListNotations.

Local Open Scope Z_scope.

(** ** Machine integers and bytes *)

Definition byte := Byte.byte.

(** Go's [byte(v)] conversion: the low eight bits. *)
Definition byte_of_Z (v : Z) : byte :=
  match Byte.of_N (Z.to_N (v mod 256)) with
  | Some b => b
  | None => Byte.x00
  end.

Definition Z_of_byte (b : byte) : Z := Z.of_N (Byte.to_N b).

(** [uint32(v)] and [int32(v)]: wrap-around conversions. *)
Definition uint32 (v : Z) : Z := v mod 2 ^ 32.

Definition int32 (v : Z) : Z :=
  let u := uint32 v in
  if u <? 2 ^ 31 then u else u - 2 ^ 32.

Definition is_int32 (v : Z) : Prop := - 2 ^ 31 <= v < 2 ^ 31.

(** [binary.LittleEndian.PutUint32]. *)
Definition PutUint32 (v : Z) : list byte :=
  [ byte_of_Z v;
    byte_of_Z (Z.shiftr v 8);
    byte_of_Z (Z.shiftr v 16);
    byte_of_Z (Z.shiftr v 24) ].

(** [binary.LittleEndian.Uint32] on four bytes. *)
Definition Uint32 (b0 b1 b2 b3 : byte) : Z :=
  Z.lor (Z.lor (Z.lor (Z_of_byte b0)
                      (Z.shiftl (Z_of_byte b1) 8))
               (Z.shiftl (Z_of_byte b2) 16))
        (Z.shiftl (Z_of_byte b3) 24).

(** ** Constants of the program *)

Definition RESPONSETYPE : Z := 0.
Definition COMMANDTYPE : Z := 2.
Definition LOGINTYPE : Z := 3.
Definition MAXRECVSIZE : nat := 4110.

(** ** Outcomes of code that may panic *)

Inductive outcome (A : Type) : Type :=
| Returns (a : A)
| Panics.

Arguments Returns {A} a.
Arguments Panics {A}.

(** ** Go slices of bytes

    [elems] are the bytes at indices [0 .. len); [spare] are the bytes of the
    backing array at indices [len .. cap). *)

Record slice : Type := mkSlice {
  elems : list byte;
  spare : list byte
}.

Definition len (s : slice) : Z := Z.of_nat (length (elems s)).
Definition cap (s : slice) : Z := Z.of_nat (length (elems s) + length (spare s)).

(** A slice whose capacity equals its length. *)
Definition exact (bs : list byte) : slice := mkSlice bs [].

(** The slice expression [s[lo:hi]] converted to a string: for a slice the
    upper bound is checked against the capacity, not the length. *)
Definition slice_string (s : slice) (lo hi : Z) : outcome (list byte) :=
  if (0 <=? lo) && (lo <=? hi) && (hi <=? cap s)
  then Returns (firstn (Z.to_nat (hi - lo))
                       (skipn (Z.to_nat lo) (elems s ++ spare s)))
  else Panics.

(** ** The packet codec *)

Record rconPacket : Type := mkPacket {
  requestID : Z;
  packetType : Z;
  payload : list byte
}.

(** A [bytes.Buffer] is the list of bytes written so far. *)
Definition Buffer := list byte.

Definition Buffer_Write (b : Buffer) (p : list byte) : Buffer := b ++ p.

(** [binary.Write(b, binary.LittleEndian, v)] for an [int32]. *)
Definition binary_Write_int32 (b : Buffer) (v : Z) : Buffer :=
  Buffer_Write b (PutUint32 (uint32 v)).

(** [binary.Write(b, binary.LittleEndian, p)] for a [[]byte]. *)
Definition binary_Write_bytes (b : Buffer) (p : list byte) : Buffer :=
  Buffer_Write b p.

Definition serialize (rp : rconPacket) : list byte :=
  let packet : Buffer := [] in
  let packetSize := int32 (4 + 4 + Z.of_nat (length (payload rp)) + 2) in
  let packet := binary_Write_int32 packet packetSize in
  let packet := binary_Write_int32 packet (requestID rp) in
  let packet := binary_Write_int32 packet (packetType rp) in
  let packet := binary_Write_bytes packet (payload rp) in
  let packet := Buffer_Write packet [Byte.x00; Byte.x00] in
  packet.

(** [binary.Read(reader, binary.LittleEndian, &v)] for an [int32] on a
    [bytes.Reader] holding [reader]: with four bytes left it stores their
    value; with fewer it drains the reader, fails, and leaves [v] as it
    was.  The caller drops the error. *)
Definition binary_Read_int32 (reader : list byte) (v : Z) : Z * list byte :=
  match reader with
  | b0 :: b1 :: b2 :: b3 :: rest => (int32 (Uint32 b0 b1 b2 b3), rest)
  | _ => (v, [])
  end.

Definition parsePacket (data : slice) : outcome rconPacket :=
  let '(packetSize, reader) := binary_Read_int32 (elems data) 0 in
  let '(requestID, reader) := binary_Read_int32 reader 0 in
  let '(packetType, reader) := binary_Read_int32 reader 0 in
  match slice_string data 12 (int32 (packetSize + 2)) with
  | Returns s => Returns (mkPacket requestID packetType s)
  | Panics => Panics
  end.

Definition makeLoginPacket (password : list byte) (requestID : Z) : list byte :=
  serialize (mkPacket requestID LOGINTYPE password).

Definition makeCommandPacket (command : list byte) (requestID : Z) : list byte :=
  serialize (mkPacket requestID COMMANDTYPE command).

(** The size field a frame declares: what [parsePacket] reads first. *)
Definition declaredSize (data : slice) : Z :=
  fst (binary_Read_int32 (elems data) 0).

(** The arithmetic meaning of a little-endian byte string: the least
    significant byte comes first. *)
Fixpoint le_value (bs : list byte) : Z :=
  match bs with
  | [] => 0
  | b :: rest => Z_of_byte b + 256 * le_value rest
  end.


(** ** Errors

    A Go [error] value that is not [nil].  [io_EOF] is the sentinel
    [io.EOF]; [OpError] stands for the errors of the [net] and [os]
    packages (time-outs, resets, ...); [Errorf] is [fmt.Errorf(msg)].
    The interface value [nil] is [None]. *)

Inductive error : Type :=
| io_EOF
| OpError (msg : string)
| Errorf (msg : string).

(** The [Error()] method: the message of an error. *)
Definition Error (e : error) : string :=
  match e with
  | io_EOF => "EOF"%string
  | OpError msg => msg
  | Errorf msg => msg
  end.

(** [err == io.EOF] *)
Definition is_EOF (err : option error) : bool :=
  match err with
  | Some io_EOF => true
  | _ => false
  end.

(** ** The TCP connection

    What one [conn.Read(buf)] gives back: the bytes [buf[:n]] it stored and
    its error. *)
Record ReadResult : Type := mkRead {
  rr_data : list byte;
  rr_err : option error
}.

(** A connection is the script of what its next calls will produce, and
    the packets written so far.  A [Write] past the end of its script
    succeeds; a [Read] past the end of its script finds nothing before the
    read deadline. *)
Record TCPConn : Type := mkConn {
  write_results : list (option error);
  read_results : list ReadResult;
  sent : list (list byte)
}.

Definition timeout_error : error := OpError "i/o timeout".

(** The read discipline of a TCP socket: a read that reports an error or
    the end of the stream stores no bytes. *)
Definition tcp_read (r : ReadResult) : Prop :=
  rr_err r <> None -> rr_data r = [].

Definition conn_Write (packet : list byte) (conn : TCPConn)
  : option error * TCPConn :=
  match write_results conn with
  | [] => (None, mkConn [] (read_results conn) (sent conn ++ [packet]))
  | None :: ws => (None, mkConn ws (read_results conn) (sent conn ++ [packet]))
  | Some e :: ws => (Some e, mkConn ws (read_results conn) (sent conn))
  end.

Definition sendPacket (packet : list byte) (conn : TCPConn)
  : option error * TCPConn :=
  let '(err, conn) := conn_Write packet conn in
  match err with
  | Some e => (Some e, conn)
  | None => (None, conn)
  end.

(** The loop of [receivePacket] over the reads still to come; [received]
    is the accumulator.  It gives the returned bytes, the returned error and
    the reads left over. *)
Fixpoint receiveLoop (reads : list ReadResult) (received : Buffer)
  : list byte * option error * list ReadResult :=
  match reads with
  | [] =>
      (* n = 0 with a time-out error: the first test breaks the loop *)
      (received, None, [])
  | r :: reads =>
      let n := length (rr_data r) in
      if is_EOF (rr_err r) || (n =? 0)%nat then (received, None, reads)
      else
        match rr_err r with
        | Some err => ([], Some err, reads)
        | None =>
            let received := Buffer_Write received (rr_data r) in
            if (n <? MAXRECVSIZE)%nat then (received, None, reads)
            else receiveLoop reads received
        end
  end.

Definition receivePacket (conn : TCPConn)
  : list byte * option error * TCPConn :=
  let '(bytes, err, reads) := receiveLoop (read_results conn) [] in
  (bytes, err, mkConn (write_results conn) reads (sent conn)).

(** The condition under which a read ends the loop of [receivePacket]:
    end of stream, no bytes, or fewer bytes than the buffer holds. *)
Definition last_read (r : ReadResult) : bool :=
  is_EOF (rr_err r) || (length (rr_data r) =? 0)%nat
  || (length (rr_data r) <? MAXRECVSIZE)%nat.

(** ** The session *)

(** What the command goroutine of [interactiveMode] ends up doing: it
    sends one value on [errchan], or waits for input for ever, or panics. *)
Inductive goroutine : Type :=
| Sends (err : option error)
| Blocks
| Crashes.

(** One call of [reader.ReadString('\n')]: the text and the error. *)
Definition LineRead : Type := (list byte * option error)%type.

Definition bytes_of (s : string) : list byte := list_byte_of_string s.

Section Session.

(** Library code the session calls: [strings.TrimSpace]; the bytes a
    [bytes.Buffer] holding [b] keeps between the length and the capacity
    of [Bytes()]; and what [colorPrint] writes for a text, unless it
    panics. *)
Variable TrimSpace : list byte -> list byte.
Variable bufferSpare : list byte -> list byte.
Variable colorPrint : list byte -> bool -> outcome (list byte).

Definition login (password : list byte) (requestID : Z) (conn : TCPConn)
  : outcome (option error) * TCPConn :=
  let loginPacket := makeLoginPacket password requestID in
  let '(err, conn) := sendPacket loginPacket conn in
  match err with
  | Some e => (Returns (Some e), conn)
  | None =>
      let '(response, err, conn) := receivePacket conn in
      match err with
      | Some e => (Returns (Some e), conn)
      | None =>
          match parsePacket (mkSlice response (bufferSpare response)) with
          | Panics => (Panics, conn)
          | Returns parsedResponse =>
              (* the fields of [parsedResponse]; [requestID] is the
                 argument of [login] *)
              let 'mkPacket parsed_requestID parsed_packetType _ :=
                parsedResponse in
              if (parsed_requestID =? requestID)
                 && (parsed_packetType =? COMMANDTYPE)
              then (Returns None, conn)
              else if parsed_requestID =? -1
              then (Returns (Some (Errorf "Password is incorrect")), conn)
              else (Returns (Some (Errorf "Login failed")), conn)
          end
      end
  end.

(** The loop of the command goroutine of [interactiveMode], over the
    results the reads of standard input will give.  [stdout] collects
    what is printed. *)
Fixpoint commandLoop (requestID : Z) (colored : bool)
         (stdin : list LineRead) (conn : TCPConn) (stdout : list (list byte))
  : goroutine * TCPConn * list (list byte) :=
  let stdout := stdout ++ [bytes_of "> "] in
  match stdin with
  | [] => (Blocks, conn, stdout)
  | (input, err) :: stdin =>
      if is_EOF err then (Sends None, conn, stdout ++ [bytes_of "^D"])
      else
        match err with
        | Some e => (Sends (Some e), conn, stdout)
        | None =>
            let commandPacket :=
              makeCommandPacket (TrimSpace input) requestID in
            let '(err, conn) := sendPacket commandPacket conn in
            match err with
            | Some e => (Sends (Some e), conn, stdout)
            | None =>
                let '(responsePacket, err, conn) := receivePacket conn in
                if (length responsePacket =? 0)%nat
                then (Sends (Some (Errorf "No response received")),
                      conn, stdout)
                else
                  match parsePacket (mkSlice responsePacket
                                             (bufferSpare responsePacket)) with
                  | Panics => (Crashes, conn, stdout)
                  | Returns response =>
                      match colorPrint response.(payload) colored with
                      | Panics => (Crashes, conn, stdout)
                      | Returns text =>
                          commandLoop requestID colored stdin conn
                                      (stdout ++ [text])
                      end
                  end
            end
        end
  end.

(** [interactiveMode] returns the first value sent on [errchan]: [nil]
    from the signal goroutine when an interrupt arrives, or the value the
    command goroutine sends.  [interrupted] tells whether an interrupt
    arrives at all; when both goroutines send, either may be first. *)
Inductive interactiveMode (requestID : Z) (conn : TCPConn) (colored : bool)
          (stdin : list LineRead) (interrupted : bool)
  : option error -> Prop :=
| signal_first :
    interrupted = true ->
    interactiveMode requestID conn colored stdin interrupted None
| command_first (err : option error) :
    fst (fst (commandLoop requestID colored stdin conn [])) = Sends err ->
    interactiveMode requestID conn colored stdin interrupted err.

End Session.

(** [main] draws the session's request id as [int32(rand.Int())], where
    [rand.Int()] is a non-negative 63-bit integer. *)
Definition session_requestID (r : Z) : Z := int32 r.

(** ** Stand-ins for the library code, used in the examples *)

(** ASCII white space, as [strings.TrimSpace] sees it. *)
Definition asciiSpace (b : byte) : bool :=
  let c := Z_of_byte b in
  (c =? 9) || (c =? 10) || (c =? 11) || (c =? 12) || (c =? 13) || (c =? 32).

Fixpoint trimLeft (s : list byte) : list byte :=
  match s with
  | b :: rest => if asciiSpace b then trimLeft rest else s
  | [] => []
  end.

(** [strings.TrimSpace] on ASCII text. *)
Definition TrimSpaceASCII (s : list byte) : list byte :=
  rev (trimLeft (rev (trimLeft s))).

(** A buffer whose capacity equals its length. *)
Definition noSpare (b : list byte) : list byte := [].

(** A [colorPrint] that prints the text as it is. *)
Definition plainPrint (text : list byte) (colored : bool) : outcome (list byte) :=
  Returns text.

(** ** Example frames *)

(** Twelve zero bytes: a header that declares size 0. *)
Definition zero_header : slice := exact (repeat Byte.x00 12).

(** A bare header that declares size 20, in a slice with no spare
    capacity and in one with ten spare bytes. *)
Definition short_header : list byte :=
  PutUint32 20 ++ PutUint32 7 ++ PutUint32 COMMANDTYPE.

Definition short_frame : slice := exact short_header.

Definition short_frame_roomy : slice := mkSlice short_header (repeat Byte.x2a 10).

(** ** Example reads *)

(** A read that fills the whole buffer. *)
Definition full_chunk : list byte := repeat Byte.x41 MAXRECVSIZE.

(** The reads of the fragmentation example: a full buffer, then ten
    bytes, then the start of a later reply. *)
Definition fragmented_reads : list ReadResult :=
  [mkRead full_chunk None; mkRead (bytes_of "0123456789") None;
   mkRead (bytes_of "next") None].

(** ** Example sessions *)

(** A line of input: the text and the newline that ends it. *)
Definition line (s : string) : LineRead := (bytes_of s ++ [Byte.x0a], None).

(** The reply of a server that accepts, rejects, or answers off protocol. *)
Definition reply (id ty : Z) (text : string) : ReadResult :=
  mkRead (serialize (mkPacket id ty (bytes_of text))) None.

(** A connection on which these reads are still to come. *)
Definition incoming (reads : list ReadResult) : TCPConn := mkConn [] reads [].

(** The peer closes the connection: end of stream with no bytes. *)
Definition closed_read : ReadResult := mkRead [] (Some io_EOF).

(** The read deadline passes. *)
Definition timed_out_read : ReadResult := mkRead [] (Some timeout_error).

(** ** Printing a reply: [colorPrint] *)

(** The attributes of the color package that [colorMap] uses; [Reset] is
    the zero value, which a map lookup gives for a missing key. *)
Inductive Attribute : Type :=
| Reset
| FgBlack | FgBlue | FgGreen | FgCyan | FgRed | FgMagenta | FgYellow | FgWhite
| FgHiBlack | FgHiBlue | FgHiGreen | FgHiCyan | FgHiRed | FgHiMagenta
| FgHiYellow | FgHiWhite.

(** [colorMap[c]] *)
Definition colorMap (c : byte) : Attribute :=
  match c with
  | "0"%byte => FgBlack
  | "1"%byte => FgBlue
  | "2"%byte => FgGreen
  | "3"%byte => FgCyan
  | "4"%byte => FgRed
  | "5"%byte => FgMagenta
  | "6"%byte => FgYellow
  | "7"%byte => FgWhite
  | "8"%byte => FgHiBlack
  | "9"%byte => FgHiBlue
  | "a"%byte => FgHiGreen
  | "b"%byte => FgHiCyan
  | "c"%byte => FgHiRed
  | "d"%byte => FgHiMagenta
  | "e"%byte => FgHiYellow
  | "f"%byte => FgHiWhite
  | _ => Reset
  end.

(** What [colorPrint] does to the terminal, call by call. *)
Inductive Output : Type :=
| fmt_Print (s : list byte)
| fmt_Println (s : list byte)
| color_Set (a : Attribute)
| color_Unset.

Definition is_color_Set (o : Output) : bool :=
  match o with
  | color_Set _ => true
  | _ => false
  end.

(** The bytes the calls of [fmt] write, one after the other. *)
Fixpoint printed (out : list Output) : list byte :=
  match out with
  | [] => []
  | fmt_Print s :: out => s ++ printed out
  | fmt_Println s :: out => s ++ [Byte.x0a] ++ printed out
  | _ :: out => printed out
  end.

Section ColorPrint.

(** Library code: [strings.Trim], [strings.Contains] and [strings.Split].
    [marker] is the string literal of lines 70 and 75 (the formatting
    sign); [marker_byte] is the byte that the rune literal of line 78
    stands for in the comparison with [text[0]]. *)
Variable strings_Trim : list byte -> list byte -> list byte.
Variable strings_Contains : list byte -> list byte -> bool.
Variable strings_Split : list byte -> list byte -> list (list byte).
Variable marker : list byte.
Variable marker_byte : byte.

(** The [range] loop of [colorPrint] from index [i] on.  It gives the
    calls made and whether the loop ran to its end or panicked. *)
Fixpoint colorPrint_range (text : list byte) (colored : bool) (i : nat)
         (textParts : list (list byte)) : list Output * outcome unit :=
  match textParts with
  | [] => ([], Returns tt)
  | part :: textParts =>
      (* i == 0 && text[0] != marker_byte *)
      let first_plain :=
        if (i =? 0)%nat
        then match text with
             | [] => Panics
             | b :: _ => Returns (negb (Byte.eqb b marker_byte))
             end
        else Returns false in
      match first_plain with
      | Panics => ([], Panics)
      | Returns true =>
          let '(out, r) := colorPrint_range text colored (S i) textParts in
          (fmt_Print part :: out, r)
      | Returns false =>
          match part with
          | [] =>
              (* part[0] when colored, part[1:] otherwise *)
              ([], Panics)
          | c :: part_tail =>
              let '(out, r) := colorPrint_range text colored (S i) textParts in
              ((if colored then [color_Set (colorMap c)] else [])
               ++ fmt_Print part_tail :: color_Unset :: out, r)
          end
      end
  end.

Definition colorPrint (text : list byte) (colored : bool)
  : list Output * outcome unit :=
  let text := strings_Trim text [Byte.x0a] in
  if negb (strings_Contains text marker)
  then ([fmt_Println text], Returns tt)
  else
    let textParts := strings_Split text marker in
    let '(out, r) := colorPrint_range text colored 0 textParts in
    match r with
    | Returns _ => (out ++ [fmt_Println []], Returns tt)
    | Panics => (out, Panics)
    end.

(** [colorPrint] as the loop of [interactiveMode] sees it: the bytes
    written, unless it panics. *)
Definition colorPrint_shown (text : list byte) (colored : bool)
  : outcome (list byte) :=
  match colorPrint text colored with
  | (out, Returns _) => Returns (printed out)
  | (_, Panics) => Panics
  end.

End ColorPrint.

(** ** Stand-ins for the [strings] package, used in the examples *)

Definition in_cutset (cutset : list byte) (b : byte) : bool :=
  existsb (Byte.eqb b) cutset.

Fixpoint trimLeftCutset (cutset s : list byte) : list byte :=
  match s with
  | b :: rest => if in_cutset cutset b then trimLeftCutset cutset rest else s
  | [] => []
  end.

Definition TrimCutset (s cutset : list byte) : list byte :=
  rev (trimLeftCutset cutset (rev (trimLeftCutset cutset s))).

Fixpoint hasPrefix (s prefix : list byte) : bool :=
  match prefix, s with
  | [], _ => true
  | p :: prefix, b :: s => Byte.eqb b p && hasPrefix s prefix
  | _ :: _, [] => false
  end.

Fixpoint ContainsSub (s substr : list byte) : bool :=
  hasPrefix s substr ||
  match s with
  | [] => false
  | _ :: rest => ContainsSub rest substr
  end.

(** Splitting at each occurrence of [sep], left to right; [skip] counts
    the bytes of an occurrence still to pass over and [part] holds the
    part under way, last byte first. *)
Fixpoint splitFrom (sep : list byte) (skip : nat) (part : list byte)
         (s : list byte) : list (list byte) :=
  match s with
  | [] => [rev part]
  | b :: rest =>
      match skip with
      | S skip => splitFrom sep skip part rest
      | O =>
          if hasPrefix s sep
          then rev part :: splitFrom sep (length sep - 1) [] rest
          else splitFrom sep 0 (b :: part) rest
      end
  end.

Definition SplitOn (s sep : list byte) : list (list byte) :=
  splitFrom sep 0 [] s.

(** The formatting sign in UTF-8, and the byte of its code point. *)
Definition section_sign : list byte := [Byte.xc2; Byte.xa7].
Definition section_sign_byte : byte := Byte.xa7.
(** ** Byte-level lemmas *)

Lemma Z_of_byte_range (b : byte) : 0 <= Z_of_byte b < 256.
Proof.
  unfold Z_of_byte. pose proof (Byte.to_N_bounded b). lia.
Qed.

Lemma Z_of_byte_of_Z (v : Z) : Z_of_byte (byte_of_Z v) = v mod 256.
Proof.
  unfold Z_of_byte, byte_of_Z.
  assert (Hr : 0 <= v mod 256 < 256) by (apply Z.mod_pos_bound; lia).
  destruct (Byte.of_N (Z.to_N (v mod 256))) as [b|] eqn:E.
  - apply Byte.to_of_N in E. rewrite E. lia.
  - apply Byte.of_N_None_iff in E. lia.
Qed.

Lemma byte_of_Z_of_byte (b : byte) : byte_of_Z (Z_of_byte b) = b.
Proof.
  unfold byte_of_Z. rewrite Z.mod_small by apply Z_of_byte_range.
  unfold Z_of_byte. rewrite N2Z.id, Byte.of_to_N. reflexivity.
Qed.

Lemma Uint32_PutUint32 (u : Z) :
  0 <= u < 2 ^ 32 ->
  match PutUint32 u with
  | [b0; b1; b2; b3] => Uint32 b0 b1 b2 b3 = u
  | _ => False
  end.
Proof.
  intros Hu. unfold PutUint32, Uint32.
  rewrite !Z_of_byte_of_Z.
  change 256 with (2 ^ 8).
  Z.bitblast.
  simpl. symmetry.
  match goal with |- Z.testbit u ?k = false => assert (32 <= k) by lia end.
  apply Z.bits_above_log2; [lia|].
  destruct (Z.eq_dec u 0) as [->|]; [simpl; lia|].
  apply Z.lt_le_trans with 32; [|lia].
  apply Z.log2_lt_pow2; lia.
Qed.

Lemma uint32_range (v : Z) : 0 <= uint32 v < 2 ^ 32.
Proof. unfold uint32. apply Z.mod_pos_bound. lia. Qed.

Lemma uint32_small (v : Z) : 0 <= v < 2 ^ 32 -> uint32 v = v.
Proof. intros H. unfold uint32. apply Z.mod_small. exact H. Qed.

Lemma uint32_idem (v : Z) : uint32 (uint32 v) = uint32 v.
Proof. apply uint32_small, uint32_range. Qed.

Lemma int32_range (v : Z) : is_int32 (int32 v).
Proof.
  unfold int32, is_int32. pose proof (uint32_range v) as H.
  destruct (uint32 v <? 2 ^ 31) eqn:E.
  - apply Z.ltb_lt in E. lia.
  - apply Z.ltb_ge in E. lia.
Qed.

Lemma int32_id (v : Z) : is_int32 v -> int32 v = v.
Proof.
  unfold is_int32, int32, uint32. intros H.
  destruct (Z.neg_nonneg_cases v) as [Hneg|Hpos].
  - assert (E : v mod 2 ^ 32 = v + 2 ^ 32).
    { symmetry. apply Z.mod_unique with (q := -1); lia. }
    rewrite E.
    destruct (v + 2 ^ 32 <? 2 ^ 31) eqn:C.
    + apply Z.ltb_lt in C. lia.
    + lia.
  - rewrite Z.mod_small by lia.
    destruct (v <? 2 ^ 31) eqn:C.
    + reflexivity.
    + apply Z.ltb_ge in C. lia.
Qed.

Lemma int32_uint32 (v : Z) : int32 (uint32 v) = int32 v.
Proof. unfold int32. rewrite uint32_idem. reflexivity. Qed.

Lemma uint32_int32 (v : Z) : uint32 (int32 v) = uint32 v.
Proof.
  unfold int32. destruct (uint32 v <? 2 ^ 31).
  - apply uint32_idem.
  - unfold uint32.
    replace (v mod 2 ^ 32 - 2 ^ 32) with (v mod 2 ^ 32 + (-1) * 2 ^ 32) by lia.
    rewrite Z.mod_add by lia. apply Z.mod_mod. lia.
Qed.

Lemma byte_of_Z_congr (a b : Z) :
  a mod 256 = b mod 256 -> byte_of_Z a = byte_of_Z b.
Proof. intros H. unfold byte_of_Z. rewrite H. reflexivity. Qed.

Lemma Uint32_bytes_of (u : Z) :
  0 <= u < 2 ^ 32 ->
  Uint32 (byte_of_Z u) (byte_of_Z (Z.shiftr u 8))
         (byte_of_Z (Z.shiftr u 16)) (byte_of_Z (Z.shiftr u 24)) = u.
Proof. intros Hu. exact (Uint32_PutUint32 u Hu). Qed.

Lemma le_value_PutUint32 (u : Z) :
  0 <= u < 2 ^ 32 -> le_value (PutUint32 u) = u.
Proof.
  intros Hu. unfold PutUint32. cbn [le_value].
  rewrite !Z_of_byte_of_Z, !Z.shiftr_div_pow2 by lia.
  change (2 ^ 8) with 256. change (2 ^ 16) with 65536.
  change (2 ^ 24) with 16777216. change (2 ^ 32) with 4294967296 in Hu.
  Z.div_mod_to_equations. lia.
Qed.

Lemma PutUint32_le_value (b0 b1 b2 b3 : byte) :
  PutUint32 (le_value [b0; b1; b2; b3]) = [b0; b1; b2; b3].
Proof.
  pose proof (Z_of_byte_range b0) as H0. pose proof (Z_of_byte_range b1) as H1.
  pose proof (Z_of_byte_range b2) as H2. pose proof (Z_of_byte_range b3) as H3.
  unfold PutUint32. cbn [le_value].
  rewrite !Z.shiftr_div_pow2 by lia.
  change (2 ^ 8) with 256. change (2 ^ 16) with 65536.
  change (2 ^ 24) with 16777216.
  assert (E : forall (b : byte) (v : Z),
             v mod 256 = Z_of_byte b -> byte_of_Z v = b).
  { intros b v Hv. rewrite <- (byte_of_Z_of_byte b). apply byte_of_Z_congr.
    rewrite Hv. symmetry. apply Z.mod_small, Z_of_byte_range. }
  rewrite (E b0), (E b1), (E b2), (E b3); [reflexivity | | | |];
    Z.div_mod_to_equations; lia.
Qed.

Lemma le_value_4_range (b0 b1 b2 b3 : byte) :
  0 <= le_value [b0; b1; b2; b3] < 2 ^ 32.
Proof.
  pose proof (Z_of_byte_range b0). pose proof (Z_of_byte_range b1).
  pose proof (Z_of_byte_range b2). pose proof (Z_of_byte_range b3).
  cbn [le_value]. change (2 ^ 32) with 4294967296. lia.
Qed.

(** The shifts and ors of [Uint32] compute the little-endian value. *)
Lemma Uint32_le_value (b0 b1 b2 b3 : byte) :
  Uint32 b0 b1 b2 b3 = le_value [b0; b1; b2; b3].
Proof.
  pose proof (Uint32_PutUint32 _ (le_value_4_range b0 b1 b2 b3)) as H.
  rewrite PutUint32_le_value in H. exact H.
Qed.

Lemma length_PutUint32 (v : Z) : length (PutUint32 v) = 4%nat.
Proof. reflexivity. Qed.

Lemma binary_Read_PutUint32 (v old : Z) (rest : list byte) :
  binary_Read_int32 (PutUint32 (uint32 v) ++ rest) old = (int32 v, rest).
Proof.
  unfold PutUint32. cbn [app binary_Read_int32].
  rewrite Uint32_bytes_of by apply uint32_range.
  rewrite int32_uint32. reflexivity.
Qed.

Lemma serialize_eq (rp : rconPacket) :
  serialize rp =
  PutUint32 (uint32 (4 + 4 + Z.of_nat (length (payload rp)) + 2)) ++
  PutUint32 (uint32 (requestID rp)) ++
  PutUint32 (uint32 (packetType rp)) ++
  payload rp ++ [Byte.x00; Byte.x00].
Proof.
  unfold serialize, binary_Write_int32, binary_Write_bytes, Buffer_Write.
  rewrite uint32_int32. rewrite app_nil_l, <- !app_assoc. reflexivity.
Qed.

Lemma length_serialize (rp : rconPacket) :
  length (serialize rp) = (length (payload rp) + 14)%nat.
Proof.
  rewrite serialize_eq. rewrite !length_app, !length_PutUint32.
  cbn [length]. lia.
Qed.

(** ** The codec *)

Lemma slice_string_in_elems (s : slice) (lo hi : Z) :
  0 <= lo <= hi -> hi <= len s ->
  slice_string s lo hi =
  Returns (firstn (Z.to_nat (hi - lo)) (skipn (Z.to_nat lo) (elems s))).
Proof.
  intros Hlo Hhi. unfold slice_string, len, cap in *.
  replace ((0 <=? lo) && (lo <=? hi)
           && (hi <=? Z.of_nat (length (elems s) + length (spare s))))
    with true
    by (symmetry; rewrite !andb_true_iff, !Z.leb_le; lia).
  f_equal.
  rewrite skipn_app, firstn_app, length_skipn.
  replace (Z.to_nat (hi - lo) - (length (elems s) - Z.to_nat lo))%nat
    with 0%nat by lia.
  rewrite firstn_O, app_nil_r. reflexivity.
Qed.

Lemma parsePacket_header (data : slice) (a b c : Z) (rest : list byte) :
  elems data = PutUint32 (uint32 a) ++ PutUint32 (uint32 b)
               ++ PutUint32 (uint32 c) ++ rest ->
  parsePacket data =
  match slice_string data 12 (int32 (int32 a + 2)) with
  | Returns s => Returns (mkPacket (int32 b) (int32 c) s)
  | Panics => Panics
  end.
Proof.
  intros E. unfold parsePacket. rewrite E.
  rewrite !binary_Read_PutUint32. reflexivity.
Qed.

Lemma parsePacket_serialize (rp : rconPacket) (sp : list byte) :
  is_int32 (requestID rp) -> is_int32 (packetType rp) ->
  Z.of_nat (length (payload rp)) + 12 < 2 ^ 31 ->
  parsePacket (mkSlice (serialize rp) sp) = Returns rp.
Proof.
  intros Hid Hty Hlen. destruct rp as [rid ty pl].
  cbn [requestID packetType payload] in *.
  rewrite (parsePacket_header (mkSlice (serialize (mkPacket rid ty pl)) sp)
             _ _ _ _ (serialize_eq (mkPacket rid ty pl))).
  cbn [requestID packetType payload].
  rewrite (int32_id rid Hid), (int32_id ty Hty).
  assert (Hsz : int32 (4 + 4 + Z.of_nat (length pl) + 2)
                = Z.of_nat (length pl) + 10).
  { rewrite int32_id; [lia|]. unfold is_int32. lia. }
  rewrite Hsz.
  assert (Hhi : int32 (Z.of_nat (length pl) + 10 + 2)
                = Z.of_nat (length pl) + 12).
  { rewrite int32_id; [lia|]. unfold is_int32. lia. }
  rewrite Hhi.
  rewrite slice_string_in_elems.
  - cbn [elems]. rewrite serialize_eq. cbn [requestID packetType payload].
    unfold PutUint32. cbn [app]. change (Z.to_nat 12) with 12%nat.
    cbn [skipn].
    replace (Z.to_nat (Z.of_nat (length pl) + 12 - 12)) with (length pl) by lia.
    rewrite firstn_app, firstn_all, Nat.sub_diag, firstn_O, app_nil_r.
    reflexivity.
  - lia.
  - unfold len. cbn [elems]. rewrite length_serialize. cbn [payload]. lia.
Qed.

(** C1. Round trip: for a packet whose [requestID] and [packetType] are
    32-bit integers and whose payload has at most 4096 bytes, parsing the
    bytes [serialize] produces gives back the packet, whatever spare
    capacity the buffer has. *)
Theorem parse_serialize_roundtrip
        (rid ptype : Z) (pl : list byte) (sp : list byte) :
  is_int32 rid -> is_int32 ptype -> (length pl <= 4096)%nat ->
  exists parsed,
    parsePacket (mkSlice (serialize (mkPacket rid ptype pl)) sp)
      = Returns parsed /\
    requestID parsed = rid /\ packetType parsed = ptype /\ payload parsed = pl.
Proof.
  intros Hid Hty Hlen.
  exists (mkPacket rid ptype pl). split; [|auto].
  apply parsePacket_serialize; cbn [requestID packetType payload]; try assumption.
  change (2 ^ 31) with 2147483648. lia.
Qed.

Lemma parse_serialize_roundtrip_witness :
  exists parsed,
    parsePacket (mkSlice (serialize (mkPacket 7 COMMANDTYPE (bytes_of "list")))
                         [Byte.x2a])
      = Returns parsed /\
    requestID parsed = 7 /\ packetType parsed = COMMANDTYPE /\
    payload parsed = bytes_of "list".
Proof.
  apply (parse_serialize_roundtrip 7 COMMANDTYPE (bytes_of "list") [Byte.x2a]).
  - unfold is_int32. lia.
  - unfold is_int32, COMMANDTYPE. lia.
  - simpl. lia.
Defined.

(** C2. Wire layout: [serialize] gives a 4-byte size field, a 4-byte
    [requestID], a 4-byte [packetType], the payload and two zero bytes, in
    this order and [len(payload) + 14] bytes in all.  Each field holds the
    little-endian two's-complement image of its value; read back as signed
    32-bit integers the fields are [8 + len(payload) + 2], [requestID] and
    [packetType] whenever these fit in an [int32]. *)
Theorem serialize_wire_layout (rp : rconPacket) :
  let n := Z.of_nat (length (payload rp)) in
  exists size_f id_f type_f : list byte,
    serialize rp
      = size_f ++ id_f ++ type_f ++ payload rp ++ [Byte.x00; Byte.x00] /\
    length size_f = 4%nat /\ length id_f = 4%nat /\ length type_f = 4%nat /\
    le_value size_f = uint32 (8 + n + 2) /\
    le_value id_f = uint32 (requestID rp) /\
    le_value type_f = uint32 (packetType rp) /\
    length (serialize rp) = (length (payload rp) + 14)%nat /\
    (8 + n + 2 < 2 ^ 31 -> int32 (le_value size_f) = 8 + n + 2) /\
    (is_int32 (requestID rp) -> int32 (le_value id_f) = requestID rp) /\
    (is_int32 (packetType rp) -> int32 (le_value type_f) = packetType rp).
Proof.
  intros n.
  exists (PutUint32 (uint32 (4 + 4 + n + 2))),
         (PutUint32 (uint32 (requestID rp))),
         (PutUint32 (uint32 (packetType rp))).
  rewrite !le_value_PutUint32 by apply uint32_range.
  replace (4 + 4 + n + 2) with (8 + n + 2) by lia.
  repeat split; try reflexivity.
  - rewrite serialize_eq. subst n.
    replace (4 + 4 + Z.of_nat (length (payload rp)) + 2)
      with (8 + Z.of_nat (length (payload rp)) + 2) by lia.
    reflexivity.
  - apply length_serialize.
  - intros Hfit. rewrite int32_uint32. apply int32_id.
    unfold is_int32. subst n. lia.
  - intros Hid. rewrite int32_uint32. apply int32_id, Hid.
  - intros Hty. rewrite int32_uint32. apply int32_id, Hty.
Qed.

Lemma serialize_wire_layout_witness :
  exists size_f id_f type_f : list byte,
    serialize (mkPacket (-1) LOGINTYPE (bytes_of "pw"))
      = size_f ++ id_f ++ type_f ++ bytes_of "pw" ++ [Byte.x00; Byte.x00] /\
    int32 (le_value size_f) = 12 /\
    int32 (le_value id_f) = -1 /\
    int32 (le_value type_f) = LOGINTYPE /\
    length (serialize (mkPacket (-1) LOGINTYPE (bytes_of "pw"))) = 16%nat.
Proof.
  destruct (serialize_wire_layout (mkPacket (-1) LOGINTYPE (bytes_of "pw")))
    as (size_f & id_f & type_f & Hs & _ & _ & _ & _ & _ & _ & Hl & Hsz & Hid & Hty).
  exists size_f, id_f, type_f.
  split; [exact Hs|].
  split; [apply Hsz; simpl; lia|].
  split; [apply Hid; unfold is_int32; simpl; lia|].
  split; [apply Hty; unfold is_int32, LOGINTYPE; simpl; lia|].
  exact Hl.
Defined.

(** ** Parsing arbitrary input *)

Lemma parsePacket_cons12
      (d : slice) (b0 b1 b2 b3 b4 b5 b6 b7 b8 b9 b10 b11 : byte)
      (rest : list byte) :
  elems d = b0 :: b1 :: b2 :: b3 :: b4 :: b5 :: b6 :: b7
            :: b8 :: b9 :: b10 :: b11 :: rest ->
  declaredSize d = int32 (Uint32 b0 b1 b2 b3) /\
  parsePacket d =
  match slice_string d 12 (int32 (int32 (Uint32 b0 b1 b2 b3) + 2)) with
  | Returns s => Returns (mkPacket (int32 (Uint32 b4 b5 b6 b7))
                                   (int32 (Uint32 b8 b9 b10 b11)) s)
  | Panics => Panics
  end.
Proof.
  intros E. unfold declaredSize, parsePacket. rewrite E.
  cbn [binary_Read_int32 fst]. split; reflexivity.
Qed.

Lemma header_exists (l : list byte) :
  (12 <= length l)%nat ->
  exists b0 b1 b2 b3 b4 b5 b6 b7 b8 b9 b10 b11 rest,
    l = b0 :: b1 :: b2 :: b3 :: b4 :: b5 :: b6 :: b7
        :: b8 :: b9 :: b10 :: b11 :: rest.
Proof.
  intros H.
  do 12 (destruct l as [|? l]; [cbn [length] in H; lia|]).
  repeat eexists.
Qed.

(** When the upper index lies in the input, [parsePacket] returns and its
    payload is cut out of the input alone. *)
Lemma parsePacket_returns (d : slice) :
  12 <= int32 (declaredSize d + 2) <= len d ->
  exists rid ty,
    parsePacket d =
    Returns (mkPacket rid ty
               (firstn (Z.to_nat (int32 (declaredSize d + 2) - 12))
                       (skipn 12 (elems d)))) /\
    forall d', firstn 12 (elems d') = firstn 12 (elems d) ->
               int32 (declaredSize d + 2) <= len d' ->
               parsePacket d' =
               Returns (mkPacket rid ty
                          (firstn (Z.to_nat (int32 (declaredSize d + 2) - 12))
                                  (skipn 12 (elems d')))).
Proof.
  intros [Hlo Hhi].
  assert (Hlen : (12 <= length (elems d))%nat) by (unfold len in Hhi; lia).
  destruct (header_exists _ Hlen)
    as (b0&b1&b2&b3&b4&b5&b6&b7&b8&b9&b10&b11&rest&E).
  destruct (parsePacket_cons12 d _ _ _ _ _ _ _ _ _ _ _ _ _ E) as [Hs Hp].
  exists (int32 (Uint32 b4 b5 b6 b7)), (int32 (Uint32 b8 b9 b10 b11)).
  split.
  - rewrite Hp, <- Hs. rewrite slice_string_in_elems by lia. reflexivity.
  - intros d' Hpre Hhi'.
    assert (Hlen' : (12 <= length (elems d'))%nat) by (unfold len in Hhi'; lia).
    destruct (header_exists _ Hlen')
      as (c0&c1&c2&c3&c4&c5&c6&c7&c8&c9&c10&c11&rest'&E').
    rewrite E, E' in Hpre. cbn [firstn] in Hpre.
    injection Hpre as -> -> -> -> -> -> -> -> -> -> -> ->.
    destruct (parsePacket_cons12 d' _ _ _ _ _ _ _ _ _ _ _ _ _ E') as [Hs' Hp'].
    rewrite Hp', <- Hs. rewrite slice_string_in_elems by lia. reflexivity.
Qed.

(** C5, as the code has it.  When the input has at least 12 bytes, its
    declared size is at least 10 and the declared size plus 2 neither
    overflows an [int32] nor exceeds the input's length, [parsePacket]
    returns, its payload is [bytes[12 .. size+2)] and no byte beyond the
    input's length plays a part (the spare capacity can be anything).
    Without the precondition the slicing leaves the input: on a header
    that declares more than the input holds, [parsePacket] panics when the
    declared end also exceeds the capacity, and otherwise returns bytes of
    the backing array from beyond the input's length. *)
Theorem parsePacket_within_bounds :
  (forall data : slice,
      12 <= len data ->
      10 <= declaredSize data ->
      declaredSize data + 2 <= len data ->
      declaredSize data + 2 < 2 ^ 31 ->
      exists p,
        parsePacket data = Returns p /\
        payload p = firstn (Z.to_nat (declaredSize data + 2 - 12))
                           (skipn 12 (elems data)) /\
        forall sp, parsePacket (mkSlice (elems data) sp) = Returns p) /\
  (len short_frame < declaredSize short_frame + 2 /\
   parsePacket short_frame = Panics) /\
  (len short_frame_roomy < declaredSize short_frame_roomy + 2 /\
   parsePacket short_frame_roomy
     = Returns (mkPacket 7 COMMANDTYPE (spare short_frame_roomy))).
Proof.
  split; [|split; split; vm_compute; reflexivity].
  intros data Hlen Hsz Hfit Hnov.
  assert (Hhi : int32 (declaredSize data + 2) = declaredSize data + 2).
  { apply int32_id. unfold is_int32. lia. }
  destruct (parsePacket_returns data) as (rid & ty & Hp & Hothers).
  { rewrite Hhi. lia. }
  rewrite Hhi in Hp, Hothers.
  eexists. split; [exact Hp|]. split; [reflexivity|].
  intros sp. apply (Hothers (mkSlice (elems data) sp)); [reflexivity|].
  exact Hfit.
Qed.

Lemma parsePacket_within_bounds_witness :
  exists p,
    parsePacket (exact (serialize (mkPacket 7 COMMANDTYPE (bytes_of "ok"))))
      = Returns p /\
    payload p = bytes_of "ok".
Proof.
  destruct (proj1 parsePacket_within_bounds
              (exact (serialize (mkPacket 7 COMMANDTYPE (bytes_of "ok")))))
    as (p & Hp & Hpl & _).
  - vm_compute. discriminate.
  - vm_compute. discriminate.
  - vm_compute. discriminate.
  - vm_compute. reflexivity.
  - exists p. split; [exact Hp|]. rewrite Hpl. vm_compute. reflexivity.
Defined.

(** C5 as stated fails: twelve zero bytes are at least 12 bytes long and
    at least as long as their declared size plus 2, yet [parsePacket]
    panics on them (the slice [data[12:2]]). *)
Lemma parsePacket_precondition_counterexample :
  12 <= len zero_header /\
  declaredSize zero_header + 2 <= len zero_header /\
  parsePacket zero_header = Panics.
Proof.
  repeat split; vm_compute; congruence.
Qed.

(** C10. For an input long enough to parse (the upper index [size+2], as
    the code computes it, is at least 12 and within the input), the result
    is fixed by the first [size+2] bytes: any input that agrees on them
    parses to the same packet, whatever its padding, its trailing bytes, its
    length or its spare capacity. *)
Theorem parsePacket_prefix_only (d d' : slice) :
  12 <= int32 (declaredSize d + 2) <= len d ->
  firstn (Z.to_nat (int32 (declaredSize d + 2))) (elems d')
    = firstn (Z.to_nat (int32 (declaredSize d + 2))) (elems d) ->
  exists p,
    parsePacket d = Returns p /\
    parsePacket d' = Returns p /\
    forall tail sp,
      parsePacket (mkSlice (firstn (Z.to_nat (int32 (declaredSize d + 2)))
                                   (elems d) ++ tail) sp) = Returns p.
Proof.
  intros Hlong Hpre.
  set (hi := int32 (declaredSize d + 2)) in *.
  destruct (parsePacket_returns d Hlong) as (rid & ty & Hp & Hothers).
  fold hi in Hp, Hothers.
  assert (Hk : Z.to_nat hi = (12 + Z.to_nat (hi - 12))%nat) by lia.
  assert (Hcut : forall l : list byte,
             firstn (Z.to_nat hi) l = firstn (Z.to_nat hi) (elems d) ->
             firstn 12 l = firstn 12 (elems d) /\
             hi <= Z.of_nat (length l) /\
             firstn (Z.to_nat (hi - 12)) (skipn 12 l)
               = firstn (Z.to_nat (hi - 12)) (skipn 12 (elems d))).
  { intros l Hl. split; [|split].
    - apply (f_equal (firstn 12)) in Hl.
      rewrite !firstn_firstn in Hl.
      replace (Nat.min 12 (Z.to_nat hi)) with 12%nat in Hl by lia.
      exact Hl.
    - apply (f_equal (@length byte)) in Hl.
      rewrite !length_firstn in Hl. unfold len in Hlong. lia.
    - apply (f_equal (skipn 12)) in Hl.
      rewrite Hk in Hl. rewrite !skipn_firstn_comm in Hl.
      replace (12 + Z.to_nat (hi - 12) - 12)%nat
        with (Z.to_nat (hi - 12)) in Hl by lia.
      exact Hl. }
  eexists. split; [exact Hp|]. split.
  - destruct (Hcut _ Hpre) as (H12 & Hlen' & Hpay).
    rewrite (Hothers d' H12 Hlen'), Hpay. reflexivity.
  - intros tail sp.
    assert (Hfull : (Z.to_nat hi <= length (elems d))%nat)
      by (unfold len in Hlong; lia).
    destruct (Hcut (firstn (Z.to_nat hi) (elems d) ++ tail))
      as (H12 & Hlen' & Hpay).
    { rewrite firstn_app, length_firstn, firstn_firstn.
      replace (Nat.min (Z.to_nat hi) (Z.to_nat hi)) with (Z.to_nat hi) by lia.
      replace (Z.to_nat hi - Nat.min (Z.to_nat hi) (length (elems d)))%nat
        with 0%nat by lia.
      rewrite firstn_O, app_nil_r. reflexivity. }
    rewrite (Hothers (mkSlice _ sp) H12 Hlen'). cbn [elems].
    rewrite Hpay. reflexivity.
Qed.

Lemma parsePacket_prefix_only_witness :
  exists p,
    parsePacket (exact (serialize (mkPacket 7 COMMANDTYPE (bytes_of "ok"))))
      = Returns p /\
    parsePacket
      (mkSlice (firstn 14 (serialize (mkPacket 7 COMMANDTYPE (bytes_of "ok")))
                ++ bytes_of "junk, not padding") [Byte.x2a])
      = Returns p.
Proof.
  destruct (parsePacket_prefix_only
              (exact (serialize (mkPacket 7 COMMANDTYPE (bytes_of "ok"))))
              (mkSlice (firstn 14 (serialize (mkPacket 7 COMMANDTYPE
                                                       (bytes_of "ok")))
                        ++ bytes_of "junk, not padding") [Byte.x2a]))
    as (p & Hp & Hp' & _).
  - vm_compute. split; discriminate.
  - vm_compute. reflexivity.
  - exists p. split; assumption.
Defined.

(** ** The frame receiver *)

Lemma receiveLoop_full_read (r : ReadResult) (reads : list ReadResult)
      (received : Buffer) :
  last_read r = false -> tcp_read r ->
  receiveLoop (r :: reads) received
    = receiveLoop reads (received ++ rr_data r).
Proof.
  unfold last_read, tcp_read. intros Hlast Htcp.
  apply orb_false_iff in Hlast as [Hlast Hshort].
  cbn [receiveLoop]. rewrite Hlast, Hshort.
  destruct (rr_err r) as [e|] eqn:Eerr; [|reflexivity].
  apply orb_false_iff in Hlast as [_ Hn].
  apply Nat.eqb_neq in Hn.
  rewrite Htcp in Hn by discriminate. cbn [length] in Hn. lia.
Qed.

Lemma receiveLoop_last_read (r : ReadResult) (reads : list ReadResult)
      (received : Buffer) :
  last_read r = true -> tcp_read r ->
  receiveLoop (r :: reads) received = (received ++ rr_data r, None, reads).
Proof.
  unfold last_read, tcp_read. intros Hlast Htcp.
  cbn [receiveLoop].
  destruct (is_EOF (rr_err r) || (length (rr_data r) =? 0)%nat) eqn:Estop.
  - assert (Hnil : rr_data r = []).
    { apply orb_true_iff in Estop as [Heof|Hn].
      - apply Htcp. destruct (rr_err r); [discriminate|discriminate Heof].
      - apply Nat.eqb_eq in Hn. destruct (rr_data r); [reflexivity|discriminate Hn]. }
    rewrite Hnil, app_nil_r. reflexivity.
  - cbn [orb] in Hlast.
    destruct (rr_err r) as [e|] eqn:Eerr.
    + apply orb_false_iff in Estop as [_ Hn]. apply Nat.eqb_neq in Hn.
      rewrite Htcp in Hn by discriminate. cbn [length] in Hn. lia.
    + rewrite Hlast. reflexivity.
Qed.

Lemma receiveLoop_full_reads (pre reads : list ReadResult) (received : Buffer) :
  Forall tcp_read pre ->
  Forall (fun x => last_read x = false) pre ->
  receiveLoop (pre ++ reads) received
    = receiveLoop reads (received ++ concat (map rr_data pre)).
Proof.
  revert received.
  induction pre as [|r pre IH]; intros received Htcp Hfull.
  - cbn [app map concat]. rewrite app_nil_r. reflexivity.
  - inversion Htcp as [|? ? Hr Hpre]; subst.
    inversion Hfull as [|? ? Hr' Hpre']; subst.
    cbn [app map concat].
    rewrite receiveLoop_full_read by assumption.
    rewrite IH by assumption. rewrite app_assoc. reflexivity.
Qed.

(** A script that runs out stands for a read that times out with no
    bytes. *)
Lemma receiveLoop_script_end (reads : list ReadResult) (received : Buffer) :
  fst (receiveLoop reads received)
    = fst (receiveLoop (reads ++ [mkRead [] (Some timeout_error)]) received).
Proof.
  revert received. induction reads as [|r reads IH]; intros received.
  - reflexivity.
  - cbn [app receiveLoop].
    destruct (is_EOF (rr_err r) || (length (rr_data r) =? 0)%nat); [reflexivity|].
    destruct (rr_err r); [reflexivity|].
    destruct (length (rr_data r) <? MAXRECVSIZE)%nat; [reflexivity|].
    apply IH.
Qed.

(** C4. The frame receiver on a TCP connection: the reads before the
    first one that reports end of stream, returns no bytes or returns fewer
    than 4110 bytes do not end the loop; that read ends it; the result is
    the concatenation of the chunks of all the reads made, with no error,
    and the later reads stay unread. *)
Theorem receivePacket_reassembles
        (conn : TCPConn) (pre : list ReadResult) (r : ReadResult)
        (post : list ReadResult) :
  read_results conn = pre ++ r :: post ->
  Forall tcp_read (pre ++ [r]) ->
  Forall (fun x => last_read x = false) pre ->
  last_read r = true ->
  receivePacket conn
    = (concat (map rr_data (pre ++ [r])), None,
       mkConn (write_results conn) post (sent conn)).
Proof.
  intros Hreads Htcp Hfull Hlast.
  apply Forall_app in Htcp as [Htcp_pre Htcp_r].
  inversion Htcp_r as [|? ? Hr _]; subst.
  unfold receivePacket. rewrite Hreads.
  rewrite receiveLoop_full_reads by assumption.
  rewrite receiveLoop_last_read by assumption.
  rewrite map_app, concat_app. cbn [map concat app].
  rewrite app_nil_r. reflexivity.
Qed.

Lemma receivePacket_reassembles_witness :
  receivePacket (mkConn [] fragmented_reads [])
    = (concat (map rr_data ([mkRead full_chunk None]
                            ++ [mkRead (bytes_of "0123456789") None])),
       None,
       mkConn [] [mkRead (bytes_of "next") None] []).
Proof.
  apply (receivePacket_reassembles
           (mkConn [] fragmented_reads [])
           [mkRead full_chunk None]
           (mkRead (bytes_of "0123456789") None)
           [mkRead (bytes_of "next") None]).
  - reflexivity.
  - repeat constructor; unfold tcp_read; cbn [rr_err]; congruence.
  - constructor; [vm_compute; reflexivity | constructor].
  - vm_compute. reflexivity.
Defined.

(** ** The session *)

Section SessionProperties.

Variable TrimSpace : list byte -> list byte.
Variable bufferSpare : list byte -> list byte.
Variable colorPrint : list byte -> bool -> outcome (list byte).

(** What [login] answers once the reply has been sent for, received and
    parsed. *)
Lemma login_after_parse
      (password : list byte) (rid : Z) (conn conn1 conn2 : TCPConn)
      (response : list byte) (parsed : rconPacket) :
  sendPacket (makeLoginPacket password rid) conn = (None, conn1) ->
  receivePacket conn1 = (response, None, conn2) ->
  parsePacket (mkSlice response (bufferSpare response)) = Returns parsed ->
  login bufferSpare password rid conn =
  (Returns
     (if (requestID parsed =? rid) && (packetType parsed =? COMMANDTYPE)
      then None
      else if requestID parsed =? -1
           then Some (Errorf "Password is incorrect")
           else Some (Errorf "Login failed")),
   conn2).
Proof.
  intros Hsend Hrecv Hparse. unfold login.
  rewrite Hsend, Hrecv, Hparse.
  destruct parsed as [pid pty ppl]. cbn [requestID packetType].
  destruct ((pid =? rid) && (pty =? COMMANDTYPE)); [reflexivity|].
  destruct (pid =? -1); reflexivity.
Qed.

(** One turn of the loop of the command goroutine. *)
Lemma commandLoop_cons
      (rid : Z) (colored : bool) (input : list byte) (err : option error)
      (stdin : list LineRead) (conn : TCPConn) (stdout : list (list byte)) :
  commandLoop TrimSpace bufferSpare colorPrint rid colored
              ((input, err) :: stdin) conn stdout =
  let stdout := stdout ++ [bytes_of "> "] in
  if is_EOF err then (Sends None, conn, stdout ++ [bytes_of "^D"])
  else
    match err with
    | Some e => (Sends (Some e), conn, stdout)
    | None =>
        let '(err, conn) :=
          sendPacket (makeCommandPacket (TrimSpace input) rid) conn in
        match err with
        | Some e => (Sends (Some e), conn, stdout)
        | None =>
            let '(responsePacket, err, conn) := receivePacket conn in
            if (length responsePacket =? 0)%nat
            then (Sends (Some (Errorf "No response received")), conn, stdout)
            else
              match parsePacket (mkSlice responsePacket
                                         (bufferSpare responsePacket)) with
              | Panics => (Crashes, conn, stdout)
              | Returns response =>
                  match colorPrint (payload response) colored with
                  | Panics => (Crashes, conn, stdout)
                  | Returns text =>
                      commandLoop TrimSpace bufferSpare colorPrint
                                  rid colored stdin conn (stdout ++ [text])
                  end
              end
        end
    end.
Proof. reflexivity. Qed.

(** A loop that has used up [pre] and waits for more input goes on with
    the input that follows. *)
Lemma commandLoop_resume
      (rid : Z) (colored : bool) (pre more : list LineRead) :
  forall (conn : TCPConn) (stdout : list (list byte))
         (conn' : TCPConn) (stdout' : list (list byte)),
    commandLoop TrimSpace bufferSpare colorPrint rid colored pre conn stdout
      = (Blocks, conn', stdout') ->
    exists printed,
      stdout' = printed ++ [bytes_of "> "] /\
      commandLoop TrimSpace bufferSpare colorPrint rid colored
                  (pre ++ more) conn stdout
        = commandLoop TrimSpace bufferSpare colorPrint rid colored
                      more conn' printed.
Proof.
  induction pre as [|[input err] pre IH]; intros conn stdout conn' stdout' H.
  - cbn [commandLoop] in H. injection H as <- <-.
    exists stdout. split; reflexivity.
  - cbn [app]. rewrite commandLoop_cons in *. cbv zeta in *.
    destruct (is_EOF err); [discriminate H|].
    destruct err as [e|]; [discriminate H|].
    destruct (sendPacket _ conn) as [[e|] c1]; [discriminate H|].
    destruct (receivePacket c1) as [[resp rerr] c2].
    destruct (length resp =? 0)%nat; [discriminate H|].
    destruct (parsePacket _) as [response|]; [|discriminate H].
    destruct (colorPrint _ _) as [text|]; [|discriminate H].
    apply IH. exact H.
Qed.

(** An exchange whose reply comes back with no bytes ends the loop with
    the error of line 263, whatever [receivePacket] reports as its
    error. *)
Lemma exchange_without_reply
      (rid : Z) (colored : bool) (pre rest : list LineRead)
      (input : list byte) (conn conn0 conn1 : TCPConn)
      (stdout stdout0 : list (list byte)) :
  commandLoop TrimSpace bufferSpare colorPrint rid colored pre conn stdout
    = (Blocks, conn0, stdout0) ->
  sendPacket (makeCommandPacket (TrimSpace input) rid) conn0 = (None, conn1) ->
  fst (fst (receivePacket conn1)) = [] ->
  fst (fst (commandLoop TrimSpace bufferSpare colorPrint rid colored
                        (pre ++ (input, None) :: rest) conn stdout))
    = Sends (Some (Errorf "No response received")).
Proof.
  intros Hpre Hsend Hrecv.
  destruct (commandLoop_resume rid colored pre ((input, None) :: rest)
                               _ _ _ _ Hpre) as (printed & _ & ->).
  rewrite commandLoop_cons. cbv zeta. cbn [is_EOF].
  rewrite Hsend.
  destruct (receivePacket conn1) as [[resp rerr] c2].
  cbn [fst] in Hrecv. subst resp. reflexivity.
Qed.

Lemma interactiveMode_uninterrupted
      (rid : Z) (conn : TCPConn) (colored : bool) (stdin : list LineRead)
      (err err' : option error) :
  fst (fst (commandLoop TrimSpace bufferSpare colorPrint rid colored
                        stdin conn [])) = Sends err ->
  interactiveMode TrimSpace bufferSpare colorPrint rid conn colored stdin
                  false err' ->
  err' = err.
Proof.
  intros Hloop Hret. inversion Hret as [Hsig|e He]; subst.
  - discriminate Hsig.
  - rewrite Hloop in He. injection He as ->. reflexivity.
Qed.

(** C3, with the messages of the code.  Once the reply is parsed,
    [login] succeeds exactly when the reply's [requestID] is the one sent
    and its [packetType] is [COMMANDTYPE]; otherwise it fails with
    "Password is incorrect" when the reply's [requestID] is -1 and with
    "Login failed" in every other case. *)
Theorem login_reply_verdict
        (password : list byte) (rid : Z) (conn conn1 conn2 : TCPConn)
        (response : list byte) (parsed : rconPacket) :
  sendPacket (makeLoginPacket password rid) conn = (None, conn1) ->
  receivePacket conn1 = (response, None, conn2) ->
  parsePacket (mkSlice response (bufferSpare response)) = Returns parsed ->
  let result := fst (login bufferSpare password rid conn) in
  let accepted :=
    requestID parsed = rid /\ packetType parsed = COMMANDTYPE in
  (result = Returns None <-> accepted) /\
  (~ accepted -> requestID parsed = -1 ->
   result = Returns (Some (Errorf "Password is incorrect"))) /\
  (~ accepted -> requestID parsed <> -1 ->
   result = Returns (Some (Errorf "Login failed"))).
Proof using bufferSpare.
  clear TrimSpace colorPrint.
  intros Hsend Hrecv Hparse result accepted. subst result accepted.
  rewrite (login_after_parse _ _ _ _ _ _ _ Hsend Hrecv Hparse). cbn [fst].
  destruct (Z.eqb_spec (requestID parsed) rid) as [Hid|Hid];
    destruct (Z.eqb_spec (packetType parsed) COMMANDTYPE) as [Hty|Hty];
    destruct (Z.eqb_spec (requestID parsed) (-1)) as [Hm|Hm];
    cbn [andb]; repeat split; intros; try tauto; try congruence;
    try discriminate.
Qed.

(** C9. Success is tested before the sentinel: a login sent with
    [requestID] -1 and answered with [requestID] -1 and type
    [COMMANDTYPE] succeeds.  The session's id can be -1: it is the low 32
    bits of a non-negative random integer. *)
Theorem login_success_before_sentinel
        (password : list byte) (conn conn1 conn2 : TCPConn)
        (response : list byte) (parsed : rconPacket) :
  sendPacket (makeLoginPacket password (-1)) conn = (None, conn1) ->
  receivePacket conn1 = (response, None, conn2) ->
  parsePacket (mkSlice response (bufferSpare response)) = Returns parsed ->
  requestID parsed = -1 ->
  packetType parsed = COMMANDTYPE ->
  fst (login bufferSpare password (-1) conn) = Returns None /\
  exists r, 0 <= r < 2 ^ 63 /\ session_requestID r = -1.
Proof.
  intros Hsend Hrecv Hparse Hid Hty. split.
  - rewrite (login_after_parse _ _ _ _ _ _ _ Hsend Hrecv Hparse).
    rewrite Hid, Hty. reflexivity.
  - exists (2 ^ 32 - 1). split; [split; vm_compute; congruence|].
    vm_compute. reflexivity.
Qed.

(** C6 on the code.  In an exchange of the loop whose command was sent,
    a first read of the reply that fails with a network error does not
    come out of the loop: the goroutine sends "No response received", and
    with no interrupt that is what [interactiveMode] returns. *)
Theorem receive_error_is_dropped
        (rid : Z) (colored : bool) (pre rest : list LineRead)
        (input : list byte) (conn conn0 conn1 : TCPConn)
        (stdout0 : list (list byte))
        (data : list byte) (msg : string) (more : list ReadResult) :
  commandLoop TrimSpace bufferSpare colorPrint rid colored pre conn []
    = (Blocks, conn0, stdout0) ->
  sendPacket (makeCommandPacket (TrimSpace input) rid) conn0 = (None, conn1) ->
  read_results conn1 = mkRead data (Some (OpError msg)) :: more ->
  fst (fst (commandLoop TrimSpace bufferSpare colorPrint rid colored
                        (pre ++ (input, None) :: rest) conn []))
    = Sends (Some (Errorf "No response received")) /\
  forall err,
    interactiveMode TrimSpace bufferSpare colorPrint rid conn colored
                    (pre ++ (input, None) :: rest) false err ->
    err = Some (Errorf "No response received") /\
    err <> Some (OpError msg).
Proof.
  intros Hpre Hsend Hreads.
  assert (Hloop :
            fst (fst (commandLoop TrimSpace bufferSpare colorPrint rid colored
                                  (pre ++ (input, None) :: rest) conn []))
            = Sends (Some (Errorf "No response received"))).
  { apply (exchange_without_reply _ _ _ _ _ _ _ _ _ _ Hpre Hsend).
    unfold receivePacket. rewrite Hreads. cbn [receiveLoop rr_err rr_data is_EOF orb].
    destruct data as [|b data]; reflexivity. }
  split; [exact Hloop|].
  intros err Hret.
  rewrite (interactiveMode_uninterrupted _ _ _ _ _ _ Hloop Hret).
  split; [reflexivity|discriminate].
Qed.

(** C7, with the message of the code.  In an exchange of the loop whose
    command was sent, an empty reply buffer ends the loop with the error
    whose message is "No response received". *)
Theorem empty_reply_ends_loop
        (rid : Z) (colored : bool) (pre rest : list LineRead)
        (input : list byte) (conn conn0 conn1 conn2 : TCPConn)
        (stdout0 : list (list byte)) (rerr : option error) :
  commandLoop TrimSpace bufferSpare colorPrint rid colored pre conn []
    = (Blocks, conn0, stdout0) ->
  sendPacket (makeCommandPacket (TrimSpace input) rid) conn0 = (None, conn1) ->
  receivePacket conn1 = ([], rerr, conn2) ->
  exists e,
    fst (fst (commandLoop TrimSpace bufferSpare colorPrint rid colored
                          (pre ++ (input, None) :: rest) conn []))
      = Sends (Some e) /\
    Error e = "No response received"%string /\
    forall err,
      interactiveMode TrimSpace bufferSpare colorPrint rid conn colored
                      (pre ++ (input, None) :: rest) false err ->
      err = Some e.
Proof.
  intros Hpre Hsend Hrecv.
  exists (Errorf "No response received").
  assert (Hloop :
            fst (fst (commandLoop TrimSpace bufferSpare colorPrint rid colored
                                  (pre ++ (input, None) :: rest) conn []))
            = Sends (Some (Errorf "No response received"))).
  { apply (exchange_without_reply _ _ _ _ _ _ _ _ _ _ Hpre Hsend).
    rewrite Hrecv. reflexivity. }
  split; [exact Hloop|]. split; [reflexivity|].
  intros err Hret.
  exact (interactiveMode_uninterrupted _ _ _ _ _ _ Hloop Hret).
Qed.

(** C8. When the read of the command source that the loop has reached
    reports end of input, the goroutine sends [nil]; [interactiveMode] does
    return [nil], and returns nothing else, interrupt or not. *)
Theorem end_of_input_is_graceful
        (rid : Z) (colored : bool) (pre rest : list LineRead)
        (input : list byte) (conn conn0 : TCPConn)
        (stdout0 : list (list byte)) (interrupted : bool) :
  commandLoop TrimSpace bufferSpare colorPrint rid colored pre conn []
    = (Blocks, conn0, stdout0) ->
  fst (fst (commandLoop TrimSpace bufferSpare colorPrint rid colored
                        (pre ++ (input, Some io_EOF) :: rest) conn []))
    = Sends None /\
  interactiveMode TrimSpace bufferSpare colorPrint rid conn colored
                  (pre ++ (input, Some io_EOF) :: rest) interrupted None /\
  forall err,
    interactiveMode TrimSpace bufferSpare colorPrint rid conn colored
                    (pre ++ (input, Some io_EOF) :: rest) interrupted err ->
    err = None.
Proof.
  intros Hpre.
  assert (Hloop :
            fst (fst (commandLoop TrimSpace bufferSpare colorPrint rid colored
                                  (pre ++ (input, Some io_EOF) :: rest) conn []))
            = Sends None).
  { destruct (commandLoop_resume rid colored pre
                                 ((input, Some io_EOF) :: rest)
                                 _ _ _ _ Hpre) as (printed & _ & ->).
    rewrite commandLoop_cons. reflexivity. }
  split; [exact Hloop|]. split.
  - apply command_first. exact Hloop.
  - intros err Hret. inversion Hret as [Hsig|e He]; subst.
    + reflexivity.
    + rewrite Hloop in He. injection He as ->. reflexivity.
Qed.

End SessionProperties.

(** ** The session on concrete runs *)

Lemma login_reply_verdict_witness :
  fst (login noSpare (bytes_of "secret") 5
             (incoming [reply 5 COMMANDTYPE ""])) = Returns None.
Proof.
  destruct (login_reply_verdict
              noSpare (bytes_of "secret") 5
              (incoming [reply 5 COMMANDTYPE ""])
              (mkConn [] [reply 5 COMMANDTYPE ""]
                      [makeLoginPacket (bytes_of "secret") 5])
              (mkConn [] [] [makeLoginPacket (bytes_of "secret") 5])
              (serialize (mkPacket 5 COMMANDTYPE []))
              (mkPacket 5 COMMANDTYPE []))
    as [Hok _].
  - reflexivity.
  - vm_compute. reflexivity.
  - vm_compute. reflexivity.
  - apply Hok. split; reflexivity.
Defined.

(** C3 as stated fails on the messages: a reply with [requestID] -1 makes
    [login] fail with "Password is incorrect", not "incorrect password", and
    an off-protocol reply makes it fail with "Login failed", not
    "login failed". *)
Lemma login_messages_counterexample :
  (exists e,
      fst (login noSpare (bytes_of "wrong") 5
                 (incoming [reply (-1) COMMANDTYPE ""])) = Returns (Some e) /\
      Error e = "Password is incorrect"%string /\
      Error e <> "incorrect password"%string) /\
  (exists e,
      fst (login noSpare (bytes_of "secret") 5
                 (incoming [reply 9 RESPONSETYPE ""])) = Returns (Some e) /\
      Error e = "Login failed"%string /\
      Error e <> "login failed"%string).
Proof.
  split.
  - exists (Errorf "Password is incorrect").
    split; [vm_compute; reflexivity|]. split; [reflexivity|discriminate].
  - exists (Errorf "Login failed").
    split; [vm_compute; reflexivity|]. split; [reflexivity|discriminate].
Qed.

Lemma login_success_before_sentinel_witness :
  fst (login noSpare (bytes_of "secret") (-1)
             (incoming [reply (-1) COMMANDTYPE ""])) = Returns None.
Proof.
  apply (login_success_before_sentinel
           noSpare (bytes_of "secret")
           (incoming [reply (-1) COMMANDTYPE ""])
           (mkConn [] [reply (-1) COMMANDTYPE ""]
                   [makeLoginPacket (bytes_of "secret") (-1)])
           (mkConn [] [] [makeLoginPacket (bytes_of "secret") (-1)])
           (serialize (mkPacket (-1) COMMANDTYPE []))
           (mkPacket (-1) COMMANDTYPE [])).
  - reflexivity.
  - vm_compute. reflexivity.
  - vm_compute. reflexivity.
  - reflexivity.
  - reflexivity.
Defined.

(** The failing run of C6: after one good exchange, the command "list" is
    sent and the read of its reply times out. *)
Lemma receive_error_is_dropped_witness :
  fst (fst (commandLoop TrimSpaceASCII noSpare plainPrint 5 true
                        ([line "time set day"] ++ line "list" :: [])
                        (incoming [reply 5 RESPONSETYPE "Set the time to 1000";
                                   timed_out_read])
                        []))
    = Sends (Some (Errorf "No response received")).
Proof.
  apply (receive_error_is_dropped
           TrimSpaceASCII noSpare plainPrint 5 true
           [line "time set day"] [] (fst (line "list"))
           (incoming [reply 5 RESPONSETYPE "Set the time to 1000";
                      timed_out_read])
           (mkConn [] [timed_out_read]
                   [makeCommandPacket (bytes_of "time set day") 5])
           (mkConn [] [timed_out_read]
                   [makeCommandPacket (bytes_of "time set day") 5;
                    makeCommandPacket (bytes_of "list") 5])
           [bytes_of "> "; bytes_of "Set the time to 1000"; bytes_of "> "]
           [] "i/o timeout" []).
  - vm_compute. reflexivity.
  - vm_compute. reflexivity.
  - reflexivity.
Defined.

Lemma empty_reply_ends_loop_witness :
  exists e,
    fst (fst (commandLoop TrimSpaceASCII noSpare plainPrint 5 true
                          ([line "time set day"] ++ line "list" :: [])
                          (incoming [reply 5 RESPONSETYPE "Set the time to 1000";
                                     closed_read])
                          []))
      = Sends (Some e) /\
    Error e = "No response received"%string.
Proof.
  destruct (empty_reply_ends_loop
              TrimSpaceASCII noSpare plainPrint 5 true
              [line "time set day"] [] (fst (line "list"))
              (incoming [reply 5 RESPONSETYPE "Set the time to 1000";
                         closed_read])
              (mkConn [] [closed_read]
                      [makeCommandPacket (bytes_of "time set day") 5])
              (mkConn [] [closed_read]
                      [makeCommandPacket (bytes_of "time set day") 5;
                       makeCommandPacket (bytes_of "list") 5])
              (mkConn [] []
                      [makeCommandPacket (bytes_of "time set day") 5;
                       makeCommandPacket (bytes_of "list") 5])
              [bytes_of "> "; bytes_of "Set the time to 1000"; bytes_of "> "]
              None)
    as (e & Hloop & Hmsg & _).
  - vm_compute. reflexivity.
  - vm_compute. reflexivity.
  - vm_compute. reflexivity.
  - exists e. split; assumption.
Defined.

(** C7 as stated fails on the message: when the peer closes the
    connection with no data the loop ends with "No response received", not
    "no response received". *)
Lemma no_response_message_counterexample :
  exists e,
    fst (fst (commandLoop TrimSpaceASCII noSpare plainPrint 5 true
                          [line "list"] (incoming [closed_read]) []))
      = Sends (Some e) /\
    Error e = "No response received"%string /\
    Error e <> "no response received"%string.
Proof.
  exists (Errorf "No response received").
  split; [vm_compute; reflexivity|]. split; [reflexivity|discriminate].
Qed.

Lemma end_of_input_is_graceful_witness :
  interactiveMode TrimSpaceASCII noSpare plainPrint 5
                  (incoming [reply 5 RESPONSETYPE "Set the time to 1000"])
                  true
                  ([line "time set day"] ++ ([], Some io_EOF) :: [])
                  false None.
Proof.
  apply (end_of_input_is_graceful
           TrimSpaceASCII noSpare plainPrint 5 true
           [line "time set day"] [] []
           (incoming [reply 5 RESPONSETYPE "Set the time to 1000"])
           (mkConn [] [] [makeCommandPacket (bytes_of "time set day") 5])
           [bytes_of "> "; bytes_of "Set the time to 1000"; bytes_of "> "]
           false).
  vm_compute. reflexivity.
Defined.

(** ** More on the codec *)

Lemma app_same_length_inv (A : Type) (l1 l2 r1 r2 : list A) :
  length l1 = length l2 -> l1 ++ r1 = l2 ++ r2 -> l1 = l2 /\ r1 = r2.
Proof.
  revert l2. induction l1 as [|a l1 IH]; intros [|b l2] Hlen H;
    try discriminate Hlen.
  - split; [reflexivity|exact H].
  - cbn [app] in H. injection H as -> H. injection Hlen as Hlen.
    destruct (IH l2 Hlen H) as [-> ->]. split; reflexivity.
Qed.

Lemma PutUint32_uint32_inj (a b : Z) :
  is_int32 a -> is_int32 b ->
  PutUint32 (uint32 a) = PutUint32 (uint32 b) -> a = b.
Proof.
  intros Ha Hb H. apply (f_equal le_value) in H.
  rewrite !le_value_PutUint32 in H by apply uint32_range.
  rewrite <- (int32_id a Ha), <- (int32_id b Hb).
  rewrite <- (int32_uint32 a), <- (int32_uint32 b), H. reflexivity.
Qed.

(** Packets with 32-bit fields that serialize to the same bytes are the
    same packet, whatever the length of their payloads. *)
Theorem serialize_injective (p q : rconPacket) :
  is_int32 (requestID p) -> is_int32 (packetType p) ->
  is_int32 (requestID q) -> is_int32 (packetType q) ->
  serialize p = serialize q -> p = q.
Proof.
  intros Hpi Hpt Hqi Hqt H.
  rewrite !serialize_eq in H.
  apply app_same_length_inv in H as [_ H]; [|reflexivity].
  apply app_same_length_inv in H as [Hid H]; [|reflexivity].
  apply app_same_length_inv in H as [Hty H]; [|reflexivity].
  apply app_inv_tail in H.
  destruct p as [pi pt pp], q as [qi qt qp].
  cbn [requestID packetType payload] in *.
  rewrite (PutUint32_uint32_inj _ _ Hpi Hqi Hid).
  rewrite (PutUint32_uint32_inj _ _ Hpt Hqt Hty).
  rewrite H. reflexivity.
Qed.

Lemma serialize_injective_witness :
  mkPacket (-1) COMMANDTYPE (bytes_of "ok")
    = mkPacket (-1) COMMANDTYPE (bytes_of "ok").
Proof.
  apply serialize_injective;
    [unfold is_int32; vm_compute; split; congruence .. | reflexivity].
Defined.

Lemma parsePacket_under_4 (d : slice) :
  (length (elems d) < 4)%nat -> parsePacket d = Panics.
Proof.
  intros Hlen. unfold parsePacket.
  assert (E : binary_Read_int32 (elems d) 0 = (0, [])).
  { destruct (elems d) as [|b0 [|b1 [|b2 [|b3 l]]]]; try reflexivity.
    cbn [length] in Hlen. lia. }
  rewrite E. cbn [binary_Read_int32].
  unfold slice_string. change (int32 (0 + 2)) with 2.
  reflexivity.
Qed.

(** An input of fewer than four bytes makes [parsePacket] panic, whatever
    the capacity of its slice: the size stays 0 and the slice expression is
    [data[12:2]]. *)
Theorem parsePacket_short_input_panics (d : slice) :
  (length (elems d) < 4)%nat -> parsePacket d = Panics.
Proof. exact (parsePacket_under_4 d). Qed.

Lemma parsePacket_short_input_panics_witness :
  parsePacket (mkSlice [Byte.x0a; Byte.x00] (repeat Byte.x00 64)) = Panics.
Proof.
  apply parsePacket_short_input_panics. cbn [elems length]. lia.
Defined.

(** Whenever [parsePacket] returns, the upper index it computed lies
    between 12 and the capacity and the payload has exactly that index
    minus 12 bytes, that is, the declared size minus 10. *)
Theorem parsePacket_payload_length (d : slice) (p : rconPacket) :
  parsePacket d = Returns p ->
  12 <= int32 (declaredSize d + 2) <= cap d /\
  Z.of_nat (length (payload p)) = int32 (declaredSize d + 2) - 12.
Proof.
  unfold parsePacket, declaredSize.
  destruct (binary_Read_int32 (elems d) 0) as [sz r1].
  destruct (binary_Read_int32 r1 0) as [rid r2].
  destruct (binary_Read_int32 r2 0) as [ty r3].
  cbn [fst]. unfold slice_string.
  destruct ((0 <=? 12) && (12 <=? int32 (sz + 2))
            && (int32 (sz + 2) <=? cap d)) eqn:C; [|discriminate].
  intros H. injection H as <-. cbn [payload].
  apply andb_true_iff in C as [C Hcap]. apply andb_true_iff in C as [_ Hlo].
  apply Z.leb_le in Hcap, Hlo.
  split; [lia|].
  rewrite length_firstn.
  change (Z.of_nat (Nat.min (Z.to_nat (int32 (sz + 2) - 12))
                            (length (skipn 12 (elems d ++ spare d))))
          = int32 (sz + 2) - 12).
  rewrite length_skipn, length_app.
  unfold cap in Hcap. lia.
Qed.

Lemma parsePacket_payload_length_witness :
  12 <= int32 (declaredSize short_frame_roomy + 2) <= cap short_frame_roomy /\
  Z.of_nat (length (payload (mkPacket 7 COMMANDTYPE (spare short_frame_roomy))))
    = int32 (declaredSize short_frame_roomy + 2) - 12.
Proof.
  apply (parsePacket_payload_length short_frame_roomy).
  vm_compute. reflexivity.
Defined.

(** A header cut short reads as zero: when [parsePacket] returns on an
    input of fewer than 12 bytes the packet type is 0, and on fewer than 8
    bytes the request id is 0 as well. *)
Theorem parsePacket_truncated_header (d : slice) (p : rconPacket) :
  parsePacket d = Returns p ->
  ((length (elems d) < 12)%nat -> packetType p = 0) /\
  ((length (elems d) < 8)%nat -> requestID p = 0).
Proof.
  unfold parsePacket. intros H.
  destruct (elems d) as [|b0 [|b1 [|b2 [|b3 l]]]];
    cbn [binary_Read_int32] in H;
    try (destruct (slice_string d 12 _); [injection H as <-|discriminate H];
         split; reflexivity).
  destruct l as [|b4 [|b5 [|b6 [|b7 l]]]];
    cbn [binary_Read_int32] in H;
    try (destruct (slice_string d 12 _); [injection H as <-|discriminate H];
         split; reflexivity).
  destruct l as [|b8 [|b9 [|b10 [|b11 l]]]];
    cbn [binary_Read_int32] in H;
    try (destruct (slice_string d 12 _); [injection H as <-|discriminate H];
         split; intros; try reflexivity; cbn [length] in *; lia).
Qed.

Lemma parsePacket_truncated_header_witness :
  packetType (mkPacket 0 0 (repeat Byte.x2a 10)) = 0 /\
  requestID (mkPacket 0 0 (repeat Byte.x2a 10)) = 0.
Proof.
  destruct (parsePacket_truncated_header
              (mkSlice (firstn 6 short_header) (repeat Byte.x2a 16))
              (mkPacket 0 0 (repeat Byte.x2a 10))) as [Hty Hid].
  - vm_compute. reflexivity.
  - split; [apply Hty|apply Hid]; vm_compute; lia.
Defined.

(** ** More on the frame receiver *)

Lemma parsePacket_serialize_app (rp : rconPacket) (tail sp : list byte) :
  is_int32 (requestID rp) -> is_int32 (packetType rp) ->
  Z.of_nat (length (payload rp)) + 12 < 2 ^ 31 ->
  parsePacket (mkSlice (serialize rp ++ tail) sp) = Returns rp.
Proof.
  intros Hid Hty Hlen. destruct rp as [rid ty pl].
  cbn [requestID packetType payload] in *.
  assert (E : elems (mkSlice (serialize (mkPacket rid ty pl) ++ tail) sp)
              = PutUint32 (uint32 (4 + 4 + Z.of_nat (length pl) + 2))
                ++ PutUint32 (uint32 rid) ++ PutUint32 (uint32 ty)
                ++ (pl ++ [Byte.x00; Byte.x00] ++ tail)).
  { cbn [elems]. rewrite serialize_eq. cbn [requestID packetType payload].
    rewrite <- !app_assoc. reflexivity. }
  rewrite (parsePacket_header _ _ _ _ _ E).
  rewrite (int32_id rid Hid), (int32_id ty Hty).
  assert (Hsz : int32 (4 + 4 + Z.of_nat (length pl) + 2)
                = Z.of_nat (length pl) + 10).
  { rewrite int32_id; [lia|]. unfold is_int32. lia. }
  rewrite Hsz.
  assert (Hhi : int32 (Z.of_nat (length pl) + 10 + 2)
                = Z.of_nat (length pl) + 12).
  { rewrite int32_id; [lia|]. unfold is_int32. lia. }
  rewrite Hhi.
  rewrite slice_string_in_elems.
  - rewrite E. unfold PutUint32. cbn [app]. change (Z.to_nat 12) with 12%nat.
    cbn [skipn].
    replace (Z.to_nat (Z.of_nat (length pl) + 12 - 12)) with (length pl) by lia.
    rewrite firstn_app, firstn_all, Nat.sub_diag, firstn_O, app_nil_r.
    reflexivity.
  - lia.
  - unfold len. cbn [elems]. rewrite length_app, length_serialize.
    cbn [payload]. lia.
Qed.

(** On a TCP connection [receivePacket] never reports an error, whatever
    the reads do: a read that fails stores no bytes, and the test for zero
    bytes comes before the test of the error. *)
Theorem receivePacket_tcp_no_error (conn : TCPConn) :
  Forall tcp_read (read_results conn) ->
  snd (fst (receivePacket conn)) = None.
Proof.
  unfold receivePacket. generalize (@nil byte) as received.
  induction (read_results conn) as [|r reads IH]; intros received Htcp.
  - reflexivity.
  - inversion Htcp as [|? ? Hr Hreads]; subst.
    cbn [receiveLoop].
    destruct (is_EOF (rr_err r) || (length (rr_data r) =? 0)%nat) eqn:Estop;
      [reflexivity|].
    destruct (rr_err r) as [e|] eqn:Eerr.
    + apply orb_false_iff in Estop as [_ Hn]. apply Nat.eqb_neq in Hn.
      unfold tcp_read in Hr. rewrite Eerr in Hr.
      rewrite Hr in Hn by discriminate. cbn [length] in Hn. lia.
    + destruct (length (rr_data r) <? MAXRECVSIZE)%nat; [reflexivity|].
      specialize (IH (Buffer_Write received (rr_data r)) Hreads).
      destruct (receiveLoop reads (Buffer_Write received (rr_data r)))
        as [[bytes err] rest].
      exact IH.
Qed.

Lemma receivePacket_tcp_no_error_witness :
  snd (fst (receivePacket
              (incoming [mkRead full_chunk None; timed_out_read]))) = None.
Proof.
  apply receivePacket_tcp_no_error.
  repeat constructor; unfold tcp_read; cbn [rr_err rr_data timed_out_read];
    congruence.
Defined.

(** A read that stores bytes and fails with an error other than [io.EOF]
    makes [receivePacket] return that error and no bytes: the chunks of the
    full reads before it are dropped. *)
Theorem receivePacket_failed_read_drops_all
        (conn : TCPConn) (pre : list ReadResult) (r : ReadResult)
        (post : list ReadResult) (e : error) :
  read_results conn = pre ++ r :: post ->
  Forall tcp_read pre ->
  Forall (fun x => last_read x = false) pre ->
  rr_data r <> [] -> rr_err r = Some e -> e <> io_EOF ->
  receivePacket conn
    = ([], Some e, mkConn (write_results conn) post (sent conn)).
Proof.
  intros Hreads Htcp Hfull Hdata Herr Heof.
  unfold receivePacket. rewrite Hreads.
  rewrite receiveLoop_full_reads by assumption.
  cbn [receiveLoop]. rewrite Herr.
  assert (E1 : is_EOF (Some e) = false)
    by (destruct e; [contradiction Heof; reflexivity | reflexivity ..]).
  assert (E2 : (length (rr_data r) =? 0)%nat = false).
  { apply Nat.eqb_neq. destruct (rr_data r); [congruence|discriminate]. }
  rewrite E1, E2. reflexivity.
Qed.

Lemma receivePacket_failed_read_drops_all_witness :
  receivePacket
    (incoming [mkRead full_chunk None;
               mkRead (bytes_of "par") (Some (OpError "connection reset"))])
    = ([], Some (OpError "connection reset"), mkConn [] [] []).
Proof.
  apply (receivePacket_failed_read_drops_all
           (incoming [mkRead full_chunk None;
                      mkRead (bytes_of "par")
                             (Some (OpError "connection reset"))])
           [mkRead full_chunk None]
           (mkRead (bytes_of "par") (Some (OpError "connection reset"))) []
           (OpError "connection reset")).
  - reflexivity.
  - repeat constructor; unfold tcp_read; cbn [rr_err]; congruence.
  - constructor; [vm_compute; reflexivity | constructor].
  - discriminate.
  - reflexivity.
  - discriminate.
Defined.

(** Bytes that a read stores together with [io.EOF] are discarded:
    [receivePacket] returns the chunks of the full reads before it and no
    error. *)
Theorem receivePacket_eof_discards_chunk
        (conn : TCPConn) (pre : list ReadResult) (r : ReadResult)
        (post : list ReadResult) :
  read_results conn = pre ++ r :: post ->
  Forall tcp_read pre ->
  Forall (fun x => last_read x = false) pre ->
  rr_err r = Some io_EOF ->
  receivePacket conn
    = (concat (map rr_data pre), None,
       mkConn (write_results conn) post (sent conn)).
Proof.
  intros Hreads Htcp Hfull Herr.
  unfold receivePacket. rewrite Hreads.
  rewrite receiveLoop_full_reads by assumption.
  cbn [receiveLoop]. rewrite Herr. reflexivity.
Qed.

Lemma receivePacket_eof_discards_chunk_witness :
  receivePacket
    (incoming [mkRead full_chunk None;
               mkRead (bytes_of "tail") (Some io_EOF)])
    = (concat (map rr_data [mkRead full_chunk None]), None, mkConn [] [] []).
Proof.
  apply (receivePacket_eof_discards_chunk
           (incoming [mkRead full_chunk None;
                      mkRead (bytes_of "tail") (Some io_EOF)])
           [mkRead full_chunk None]
           (mkRead (bytes_of "tail") (Some io_EOF)) []).
  - reflexivity.
  - repeat constructor; unfold tcp_read; cbn [rr_err]; congruence.
  - constructor; [vm_compute; reflexivity | constructor].
  - reflexivity.
Defined.

(** A frame that fills the receive buffer exactly (a payload of 4096
    bytes) is not taken as complete: [receivePacket] goes on to the next
    read and returns both chunks, and [parsePacket] on the result returns the
    first packet only, so the bytes of the next read are lost. *)
Theorem full_frame_swallows_next_read
        (conn : TCPConn) (p : rconPacket) (next : ReadResult)
        (post : list ReadResult) :
  is_int32 (requestID p) -> is_int32 (packetType p) ->
  length (payload p) = 4096%nat ->
  read_results conn = mkRead (serialize p) None :: next :: post ->
  tcp_read next -> last_read next = true ->
  receivePacket conn
    = (serialize p ++ rr_data next, None,
       mkConn (write_results conn) post (sent conn)) /\
  forall sp, parsePacket (mkSlice (serialize p ++ rr_data next) sp) = Returns p.
Proof.
  intros Hid Hty Hlen Hreads Htcp Hlast. split.
  - unfold receivePacket. rewrite Hreads.
    rewrite receiveLoop_full_read.
    + rewrite receiveLoop_last_read by assumption. reflexivity.
    + unfold last_read. cbn [rr_err rr_data is_EOF orb].
      rewrite length_serialize, Hlen. reflexivity.
    + unfold tcp_read. cbn [rr_err]. congruence.
  - intros sp. apply parsePacket_serialize_app; try assumption.
    rewrite Hlen. change (2 ^ 31) with 2147483648. lia.
Qed.

Lemma full_frame_swallows_next_read_witness :
  receivePacket
    (incoming [mkRead (serialize (mkPacket 5 RESPONSETYPE (repeat Byte.x41 4096)))
                      None;
               reply 5 RESPONSETYPE "second"])
    = (serialize (mkPacket 5 RESPONSETYPE (repeat Byte.x41 4096))
       ++ rr_data (reply 5 RESPONSETYPE "second"),
       None, mkConn [] [] []).
Proof.
  apply (full_frame_swallows_next_read
           (incoming [mkRead (serialize (mkPacket 5 RESPONSETYPE
                                                  (repeat Byte.x41 4096))) None;
                      reply 5 RESPONSETYPE "second"])
           (mkPacket 5 RESPONSETYPE (repeat Byte.x41 4096))
           (reply 5 RESPONSETYPE "second") []).
  - unfold is_int32. cbn [requestID]. lia.
  - unfold is_int32, RESPONSETYPE. cbn [packetType]. lia.
  - cbn [payload]. apply repeat_length.
  - reflexivity.
  - unfold tcp_read, reply. cbn [rr_err]. congruence.
  - vm_compute. reflexivity.
Defined.

(** ** More on the session *)

Lemma sendPacket_ok (packet : list byte) (conn : TCPConn) :
  hd None (write_results conn) = None ->
  sendPacket packet conn
    = (None, mkConn (tl (write_results conn)) (read_results conn)
                    (sent conn ++ [packet])).
Proof.
  intros H. unfold sendPacket, conn_Write.
  destruct (write_results conn) as [|[e|] ws]; cbn [hd tl] in *;
    [reflexivity | discriminate H | reflexivity].
Qed.

Lemma sendPacket_fail (packet : list byte) (conn : TCPConn) (e : error) :
  hd None (write_results conn) = Some e ->
  sendPacket packet conn
    = (Some e, mkConn (tl (write_results conn)) (read_results conn)
                      (sent conn)).
Proof.
  intros H. unfold sendPacket, conn_Write.
  destruct (write_results conn) as [|[e'|] ws]; cbn [hd tl] in *;
    try discriminate H.
  injection H as ->. reflexivity.
Qed.

Lemma receivePacket_one_frame
      (conn : TCPConn) (data : list byte) (post : list ReadResult) :
  read_results conn = mkRead data None :: post ->
  data <> [] -> (length data < MAXRECVSIZE)%nat ->
  receivePacket conn
    = (data, None, mkConn (write_results conn) post (sent conn)).
Proof.
  intros Hreads Hne Hlen. unfold receivePacket. rewrite Hreads.
  rewrite receiveLoop_last_read.
  - reflexivity.
  - unfold last_read. cbn [rr_err rr_data is_EOF orb].
    apply Nat.ltb_lt in Hlen. rewrite Hlen. apply orb_true_r.
  - unfold tcp_read. cbn [rr_err]. congruence.
Qed.

Lemma receivePacket_nothing (conn : TCPConn) :
  rr_data (hd timed_out_read (read_results conn)) = [] ->
  fst (fst (receivePacket conn)) = [] /\ snd (fst (receivePacket conn)) = None.
Proof.
  intros H. unfold receivePacket.
  destruct (read_results conn) as [|r reads]; [split; reflexivity|].
  cbn [hd] in H. cbn [receiveLoop]. rewrite H. cbn [length Nat.eqb].
  rewrite orb_true_r. split; reflexivity.
Qed.

Lemma serialize_not_nil (rp : rconPacket) : serialize rp <> [].
Proof.
  intros H. apply (f_equal (@length byte)) in H.
  rewrite length_serialize in H. cbn [length] in H. lia.
Qed.

Section LoginProperties.

Variable bufferSpare : list byte -> list byte.

(** [login] against a server whose reply arrives in one read shorter than
    the buffer: the login packet is written, exactly that read is consumed,
    and the answer is success when the reply echoes the request id with
    type [COMMANDTYPE], "Password is incorrect" when it carries -1, and
    "Login failed" otherwise. *)
Theorem login_single_frame_reply
        (password : list byte) (rid : Z) (conn : TCPConn)
        (reply_id reply_type : Z) (text : list byte)
        (post : list ReadResult) :
  is_int32 reply_id -> is_int32 reply_type ->
  (length text < 4096)%nat ->
  hd None (write_results conn) = None ->
  read_results conn
    = mkRead (serialize (mkPacket reply_id reply_type text)) None :: post ->
  login bufferSpare password rid conn
    = (Returns
         (if (reply_id =? rid) && (reply_type =? COMMANDTYPE) then None
          else if reply_id =? -1
               then Some (Errorf "Password is incorrect")
               else Some (Errorf "Login failed")),
       mkConn (tl (write_results conn)) post
              (sent conn ++ [makeLoginPacket password rid])).
Proof.
  intros Hid Hty Hlen Hw Hreads. unfold login.
  rewrite (sendPacket_ok _ _ Hw).
  rewrite (receivePacket_one_frame _ (serialize (mkPacket reply_id reply_type text))
                                   post).
  - cbn [write_results sent].
    rewrite parsePacket_serialize; cbn [requestID packetType payload];
      try assumption.
    + destruct ((reply_id =? rid) && (reply_type =? COMMANDTYPE));
        [reflexivity|].
      destruct (reply_id =? -1); reflexivity.
    + change (2 ^ 31) with 2147483648. lia.
  - exact Hreads.
  - apply serialize_not_nil.
  - rewrite length_serialize. cbn [payload]. unfold MAXRECVSIZE. lia.
Qed.

(** When the write of the login packet fails, [login] returns the error of
    the write; nothing is read and nothing counts as sent. *)
Theorem login_write_error
        (password : list byte) (rid : Z) (conn : TCPConn) (e : error) :
  hd None (write_results conn) = Some e ->
  login bufferSpare password rid conn
    = (Returns (Some e),
       mkConn (tl (write_results conn)) (read_results conn) (sent conn)).
Proof.
  intros Hw. unfold login. rewrite (sendPacket_fail _ _ _ Hw). reflexivity.
Qed.

(** When the login packet is written and the first read of the reply
    brings no bytes (the peer closed the connection, the deadline passed, or
    nothing is left to read), [login] panics in [parsePacket] instead of
    returning an error. *)
Theorem login_no_reply_panics
        (password : list byte) (rid : Z) (conn : TCPConn) :
  hd None (write_results conn) = None ->
  rr_data (hd timed_out_read (read_results conn)) = [] ->
  fst (login bufferSpare password rid conn) = Panics.
Proof.
  intros Hw Hr. unfold login. rewrite (sendPacket_ok _ _ Hw).
  match goal with
  | |- context [receivePacket ?c] =>
      destruct (receivePacket_nothing c Hr) as [Hb He];
      destruct (receivePacket c) as [[resp rerr] c2]
  end.
  cbn [fst snd] in Hb, He. subst resp rerr.
  rewrite parsePacket_under_4; [reflexivity|].
  cbn [elems length]. lia.
Qed.

(** When the first read of the reply stores bytes and fails with an error
    other than [io.EOF], [login] returns that error. *)
Theorem login_receive_error
        (password : list byte) (rid : Z) (conn : TCPConn)
        (r : ReadResult) (post : list ReadResult) (e : error) :
  hd None (write_results conn) = None ->
  read_results conn = r :: post ->
  rr_data r <> [] -> rr_err r = Some e -> e <> io_EOF ->
  fst (login bufferSpare password rid conn) = Returns (Some e).
Proof.
  intros Hw Hreads Hdata Herr Heof. unfold login.
  rewrite (sendPacket_ok _ _ Hw).
  unfold receivePacket. cbn [read_results]. rewrite Hreads.
  cbn [receiveLoop]. rewrite Herr.
  assert (E1 : is_EOF (Some e) = false)
    by (destruct e; [contradiction Heof; reflexivity | reflexivity ..]).
  assert (E2 : (length (rr_data r) =? 0)%nat = false).
  { apply Nat.eqb_neq. destruct (rr_data r); [congruence|discriminate]. }
  rewrite E1, E2. reflexivity.
Qed.

End LoginProperties.

Lemma login_single_frame_reply_witness :
  login noSpare (bytes_of "wrong") 5 (incoming [reply (-1) COMMANDTYPE ""])
    = (Returns (Some (Errorf "Password is incorrect")),
       mkConn [] [] [makeLoginPacket (bytes_of "wrong") 5]).
Proof.
  apply (login_single_frame_reply
           noSpare (bytes_of "wrong") 5 (incoming [reply (-1) COMMANDTYPE ""])
           (-1) COMMANDTYPE [] []).
  - unfold is_int32. lia.
  - unfold is_int32, COMMANDTYPE. lia.
  - cbn [length]. lia.
  - reflexivity.
  - reflexivity.
Defined.

Lemma login_write_error_witness :
  login noSpare (bytes_of "secret") 5
        (mkConn [Some (OpError "broken pipe")] [reply 5 COMMANDTYPE ""] [])
    = (Returns (Some (OpError "broken pipe")),
       mkConn [] [reply 5 COMMANDTYPE ""] []).
Proof.
  apply (login_write_error
           noSpare (bytes_of "secret") 5
           (mkConn [Some (OpError "broken pipe")] [reply 5 COMMANDTYPE ""] [])).
  reflexivity.
Defined.

Lemma login_no_reply_panics_witness :
  fst (login noSpare (bytes_of "secret") 5 (incoming [closed_read])) = Panics.
Proof.
  apply login_no_reply_panics; reflexivity.
Defined.

Lemma login_receive_error_witness :
  fst (login noSpare (bytes_of "secret") 5
             (incoming [mkRead (bytes_of "par")
                               (Some (OpError "connection reset"))]))
    = Returns (Some (OpError "connection reset")).
Proof.
  apply (login_receive_error
           noSpare (bytes_of "secret") 5
           (incoming [mkRead (bytes_of "par")
                             (Some (OpError "connection reset"))])
           (mkRead (bytes_of "par") (Some (OpError "connection reset"))) []).
  - reflexivity.
  - reflexivity.
  - discriminate.
  - reflexivity.
  - discriminate.
Defined.

Lemma sendPacket_cases (packet : list byte) (conn : TCPConn) :
  (exists conn',
      sendPacket packet conn = (None, conn') /\
      write_results conn' = tl (write_results conn) /\
      sent conn' = sent conn ++ [packet]) \/
  (exists e conn',
      sendPacket packet conn = (Some e, conn') /\
      hd None (write_results conn) = Some e /\
      sent conn' = sent conn).
Proof.
  destruct (hd None (write_results conn)) as [e|] eqn:H.
  - right. exists e. eexists. rewrite (sendPacket_fail _ _ _ H).
    repeat split.
  - left. eexists. rewrite (sendPacket_ok _ _ H). repeat split.
Qed.

Lemma receivePacket_keeps (conn : TCPConn) :
  write_results (snd (receivePacket conn)) = write_results conn /\
  sent (snd (receivePacket conn)) = sent conn.
Proof.
  unfold receivePacket.
  destruct (receiveLoop (read_results conn) []) as [[bytes err] reads].
  split; reflexivity.
Qed.

Lemma hd_Some_In (A : Type) (x : A) (l : list (option A)) :
  hd None l = Some x -> In (Some x) l.
Proof. destruct l as [|y l]; [discriminate|]. cbn [hd]. intros ->. left. reflexivity. Qed.

Lemma In_tl (A : Type) (x : A) (l : list A) : In x (tl l) -> In x l.
Proof. destruct l; [intros []|]. cbn [tl]. intros H. right. exact H. Qed.

Section LoopProperties.

Variable TrimSpace : list byte -> list byte.
Variable bufferSpare : list byte -> list byte.
Variable colorPrint : list byte -> bool -> outcome (list byte).

(** Where the errors of the loop come from: an error the command
    goroutine sends is the error of a read of standard input (never
    [io.EOF]), or the error of a write on the connection, or
    "No response received".  The errors of the reads on the connection
    never come out. *)
Theorem commandLoop_error_sources (rid : Z) (colored : bool) :
  forall (stdin : list LineRead) (conn : TCPConn) (stdout : list (list byte))
         (e : error),
    fst (fst (commandLoop TrimSpace bufferSpare colorPrint rid colored
                          stdin conn stdout)) = Sends (Some e) ->
    (exists input, In (input, Some e) stdin /\ e <> io_EOF) \/
    In (Some e) (write_results conn) \/
    e = Errorf "No response received".
Proof.
  induction stdin as [|[input err] stdin IH]; intros conn stdout e H.
  - discriminate H.
  - rewrite commandLoop_cons in H. cbv zeta in H.
    destruct (is_EOF err) eqn:Eeof; [discriminate H|].
    destruct err as [e0|].
    { cbn [fst] in H. injection H as ->. left. exists input. split.
      - left. reflexivity.
      - intros ->. discriminate Eeof. }
    destruct (sendPacket_cases (makeCommandPacket (TrimSpace input) rid) conn)
      as [(c1 & Hs & Hw & _) | (e1 & c1 & Hs & Hhd & _)]; rewrite Hs in H.
    + pose proof (receivePacket_keeps c1) as [Hkw _].
      destruct (receivePacket c1) as [[resp rerr] c2]. cbn [snd] in Hkw.
      destruct (length resp =? 0)%nat.
      { cbn [fst] in H. injection H as <-. right. right. reflexivity. }
      destruct (parsePacket _) as [response|]; [|discriminate H].
      destruct (colorPrint _ _) as [text|]; [|discriminate H].
      apply IH in H. destruct H as [(input' & Hin & Hne) | [Hin | ->]].
      * left. exists input'. split; [right; exact Hin|exact Hne].
      * right. left. apply In_tl. rewrite <- Hw, <- Hkw. exact Hin.
      * right. right. reflexivity.
    + cbn [fst] in H. injection H as <-. right. left.
      apply hd_Some_In. exact Hhd.
Qed.

(** What the loop writes: the packets it adds to the connection are the
    command packets of the first lines of input, one per line and in
    order, each with the session's request id and the trimmed line as
    payload. *)
Theorem commandLoop_sent_log (rid : Z) (colored : bool) :
  forall (stdin : list LineRead) (conn : TCPConn) (stdout : list (list byte)),
  exists k,
    sent (snd (fst (commandLoop TrimSpace bufferSpare colorPrint rid colored
                                stdin conn stdout)))
    = sent conn
      ++ map (fun l : LineRead => makeCommandPacket (TrimSpace (fst l)) rid)
             (firstn k stdin).
Proof.
  induction stdin as [|[input err] stdin IH]; intros conn stdout.
  - exists 0%nat. cbn [commandLoop fst snd firstn map]. rewrite app_nil_r.
    reflexivity.
  - rewrite commandLoop_cons. cbv zeta.
    destruct (is_EOF err).
    { exists 0%nat. cbn [fst snd firstn map]. rewrite app_nil_r. reflexivity. }
    destruct err as [e0|].
    { exists 0%nat. cbn [fst snd firstn map]. rewrite app_nil_r. reflexivity. }
    destruct (sendPacket_cases (makeCommandPacket (TrimSpace input) rid) conn)
      as [(c1 & Hs & _ & Hsent) | (e1 & c1 & Hs & _ & Hsent)]; rewrite Hs.
    + pose proof (receivePacket_keeps c1) as [_ Hks].
      destruct (receivePacket c1) as [[resp rerr] c2]. cbn [snd] in Hks.
      assert (Hone : sent c2
                     = sent conn
                       ++ map (fun l : LineRead =>
                                 makeCommandPacket (TrimSpace (fst l)) rid)
                              (firstn 1 ((input, @None error) :: stdin))).
      { rewrite Hks, Hsent. reflexivity. }
      destruct (length resp =? 0)%nat; [exists 1%nat; exact Hone|].
      destruct (parsePacket _) as [response|]; [|exists 1%nat; exact Hone].
      destruct (colorPrint _ _) as [text|]; [|exists 1%nat; exact Hone].
      destruct (IH c2 ((stdout ++ [bytes_of "> "]) ++ [text])) as [k Hk].
      exists (S k). rewrite Hk, Hks, Hsent. cbn [firstn map fst].
      rewrite <- app_assoc. reflexivity.
    + exists 0%nat. cbn [fst snd firstn map]. rewrite app_nil_r. exact Hsent.
Qed.

(** The reply to a command is not checked: a reply that arrives in one
    read shorter than the buffer is printed and the loop goes on, whatever
    request id and packet type it carries. *)
Theorem reply_fields_not_checked
        (rid : Z) (colored : bool) (input : list byte) (rest : list LineRead)
        (conn : TCPConn) (stdout : list (list byte))
        (reply_id reply_type : Z) (text shown : list byte)
        (post : list ReadResult) :
  is_int32 reply_id -> is_int32 reply_type ->
  (length text < 4096)%nat ->
  hd None (write_results conn) = None ->
  read_results conn
    = mkRead (serialize (mkPacket reply_id reply_type text)) None :: post ->
  colorPrint text colored = Returns shown ->
  commandLoop TrimSpace bufferSpare colorPrint rid colored
              ((input, None) :: rest) conn stdout
    = commandLoop TrimSpace bufferSpare colorPrint rid colored rest
                  (mkConn (tl (write_results conn)) post
                          (sent conn
                           ++ [makeCommandPacket (TrimSpace input) rid]))
                  ((stdout ++ [bytes_of "> "]) ++ [shown]).
Proof.
  intros Hid Hty Hlen Hw Hreads Hshow.
  rewrite commandLoop_cons. cbv zeta. cbn [is_EOF].
  rewrite (sendPacket_ok _ _ Hw).
  rewrite (receivePacket_one_frame
             _ (serialize (mkPacket reply_id reply_type text)) post).
  - cbn [write_results sent].
    assert (Hn : (length (serialize (mkPacket reply_id reply_type text)) =? 0)%nat
                 = false).
    { apply Nat.eqb_neq. rewrite length_serialize. lia. }
    rewrite Hn.
    rewrite parsePacket_serialize; cbn [requestID packetType payload];
      try assumption.
    + rewrite Hshow. reflexivity.
    + change (2 ^ 31) with 2147483648. lia.
  - exact Hreads.
  - apply serialize_not_nil.
  - rewrite length_serialize. cbn [payload]. unfold MAXRECVSIZE. lia.
Qed.

(** The errors that do come out of the loop: when the loop has reached a
    read of standard input that fails with an error other than [io.EOF],
    the goroutine sends that error; when the line is read and the write of
    its command fails, the goroutine sends the error of the write. *)
Theorem command_errors_propagate
        (rid : Z) (colored : bool) (pre rest : list LineRead)
        (input : list byte) (conn conn0 : TCPConn)
        (stdout0 : list (list byte)) (e : error) :
  commandLoop TrimSpace bufferSpare colorPrint rid colored pre conn []
    = (Blocks, conn0, stdout0) ->
  (e <> io_EOF ->
   fst (fst (commandLoop TrimSpace bufferSpare colorPrint rid colored
                         (pre ++ (input, Some e) :: rest) conn []))
     = Sends (Some e)) /\
  (hd None (write_results conn0) = Some e ->
   fst (fst (commandLoop TrimSpace bufferSpare colorPrint rid colored
                         (pre ++ (input, None) :: rest) conn []))
     = Sends (Some e)).
Proof.
  intros Hpre. split.
  - intros Hne.
    destruct (commandLoop_resume TrimSpace bufferSpare colorPrint rid colored
                                 pre ((input, Some e) :: rest)
                                 _ _ _ _ Hpre) as (printed & _ & ->).
    rewrite commandLoop_cons. cbv zeta.
    destruct e; [contradiction Hne; reflexivity | reflexivity ..].
  - intros Hw.
    destruct (commandLoop_resume TrimSpace bufferSpare colorPrint rid colored
                                 pre ((input, None) :: rest)
                                 _ _ _ _ Hpre) as (printed & _ & ->).
    rewrite commandLoop_cons. cbv zeta. cbn [is_EOF].
    rewrite (sendPacket_fail _ _ _ Hw). reflexivity.
Qed.

End LoopProperties.

Lemma commandLoop_error_sources_witness :
  (exists input,
      In (input, Some (OpError "broken pipe"))
         [line "list"; line "stop"] /\ OpError "broken pipe" <> io_EOF) \/
  In (Some (OpError "broken pipe"))
     (write_results (mkConn [None; Some (OpError "broken pipe")]
                            [reply 5 RESPONSETYPE "There are 0 players"] [])) \/
  OpError "broken pipe" = Errorf "No response received".
Proof.
  apply (commandLoop_error_sources
           TrimSpaceASCII noSpare plainPrint 5 true
           [line "list"; line "stop"]
           (mkConn [None; Some (OpError "broken pipe")]
                   [reply 5 RESPONSETYPE "There are 0 players"] [])
           []).
  vm_compute. reflexivity.
Defined.

Lemma reply_fields_not_checked_witness :
  commandLoop TrimSpaceASCII noSpare plainPrint 5 true
              ((fst (line "list"), None) :: [])
              (incoming [reply 77 LOGINTYPE "not for you"]) []
    = commandLoop TrimSpaceASCII noSpare plainPrint 5 true []
                  (mkConn (tl (write_results
                                 (incoming [reply 77 LOGINTYPE "not for you"])))
                          []
                          (sent (incoming [reply 77 LOGINTYPE "not for you"])
                           ++ [makeCommandPacket
                                 (TrimSpaceASCII (fst (line "list"))) 5]))
                  (([] ++ [bytes_of "> "]) ++ [bytes_of "not for you"]).
Proof.
  apply (reply_fields_not_checked
           TrimSpaceASCII noSpare plainPrint 5 true
           (fst (line "list")) []
           (incoming [reply 77 LOGINTYPE "not for you"]) []
           77 LOGINTYPE (bytes_of "not for you") (bytes_of "not for you") []).
  - unfold is_int32. lia.
  - unfold is_int32, LOGINTYPE. lia.
  - vm_compute. lia.
  - reflexivity.
  - reflexivity.
  - reflexivity.
Defined.

Lemma command_errors_propagate_witness :
  fst (fst (commandLoop TrimSpaceASCII noSpare plainPrint 5 true
                        ([line "time set day"] ++ line "list" :: [])
                        (mkConn [None; Some (OpError "broken pipe")]
                                [reply 5 RESPONSETYPE "Set the time to 1000"]
                                [])
                        []))
    = Sends (Some (OpError "broken pipe")).
Proof.
  apply (command_errors_propagate
           TrimSpaceASCII noSpare plainPrint 5 true
           [line "time set day"] [] (fst (line "list"))
           (mkConn [None; Some (OpError "broken pipe")]
                   [reply 5 RESPONSETYPE "Set the time to 1000"] [])
           (mkConn [Some (OpError "broken pipe")] []
                   [makeCommandPacket (bytes_of "time set day") 5])
           [bytes_of "> "; bytes_of "Set the time to 1000"; bytes_of "> "]
           (OpError "broken pipe")).
  - vm_compute. reflexivity.
  - reflexivity.
Defined.

(** ** Printing a reply *)

Section ColorPrintProperties.

Variable strings_Trim : list byte -> list byte -> list byte.
Variable strings_Contains : list byte -> list byte -> bool.
Variable strings_Split : list byte -> list byte -> list (list byte).
Variable marker : list byte.
Variable marker_byte : byte.

(** After the first part every part is taken as coded: the loop runs to
    its end exactly when none of them is empty. *)
Lemma colorPrint_range_coded_returns (text : list byte) (colored : bool) :
  forall (parts : list (list byte)) (i : nat),
    snd (colorPrint_range marker_byte text colored (S i) parts) = Returns tt
    <-> Forall (fun p => p <> []) parts.
Proof.
  induction parts as [|part parts IH]; intros i.
  - cbn [colorPrint_range snd]. split; [constructor|reflexivity].
  - cbn [colorPrint_range Nat.eqb].
    destruct part as [|c part_tail].
    + cbn [snd]. split; [discriminate|].
      intros H. inversion H as [|? ? Hne _]. contradiction Hne. reflexivity.
    + specialize (IH (S i)).
      destruct (colorPrint_range marker_byte text colored (S (S i)) parts)
        as [out r].
      cbn [snd] in *. rewrite IH. split.
      * intros H. constructor; [discriminate|exact H].
      * intros H. inversion H. assumption.
Qed.

Lemma colorPrint_range_coded_printed (text : list byte) (colored : bool) :
  forall (parts : list (list byte)) (i : nat),
    Forall (fun p => p <> []) parts ->
    printed (fst (colorPrint_range marker_byte text colored (S i) parts))
      = concat (map (skipn 1) parts).
Proof.
  induction parts as [|part parts IH]; intros i Hne.
  - reflexivity.
  - inversion Hne as [|? ? Hpart Hparts]; subst.
    cbn [colorPrint_range Nat.eqb].
    destruct part as [|c part_tail]; [contradiction Hpart; reflexivity|].
    specialize (IH (S i) Hparts).
    destruct (colorPrint_range marker_byte text colored (S (S i)) parts)
      as [out r].
    cbn [fst map concat skipn] in *.
    destruct colored; cbn [app printed]; rewrite IH; reflexivity.
Qed.

Lemma colorPrint_range_uncolored (text : list byte) :
  forall (parts : list (list byte)) (i : nat),
    filter (fun o => negb (is_color_Set o))
           (fst (colorPrint_range marker_byte text true i parts))
      = fst (colorPrint_range marker_byte text false i parts) /\
    snd (colorPrint_range marker_byte text true i parts)
      = snd (colorPrint_range marker_byte text false i parts) /\
    Forall (fun o => is_color_Set o = false)
           (fst (colorPrint_range marker_byte text false i parts)).
Proof.
  induction parts as [|part parts IH]; intros i.
  - cbn [colorPrint_range fst snd filter]. repeat split. constructor.
  - cbn [colorPrint_range].
    specialize (IH (S i)).
    destruct (colorPrint_range marker_byte text true (S i) parts) as [out1 r1].
    destruct (colorPrint_range marker_byte text false (S i) parts) as [out2 r2].
    cbn [fst snd] in IH. destruct IH as (Hf & Hr & Hall).
    destruct (if (i =? 0)%nat
              then match text with
                   | [] => Panics
                   | b :: _ => Returns (negb (Byte.eqb b marker_byte))
                   end
              else Returns false) as [[|]|].
    + cbn [fst snd filter is_color_Set negb]. rewrite Hf.
      repeat split; [exact Hr|]. constructor; [reflexivity|exact Hall].
    + destruct part as [|c part_tail].
      * cbn [fst snd filter]. repeat split. constructor.
      * cbn [fst snd app filter is_color_Set negb]. rewrite Hf.
        repeat split; [exact Hr|].
        constructor; [reflexivity|]. constructor; [reflexivity|exact Hall].
    + cbn [fst snd filter]. repeat split. constructor.
Qed.

Lemma colorPrint_returns_when
        (text : list byte) (colored : bool) (b : byte) (rest : list byte) :
  strings_Trim text [Byte.x0a] = b :: rest ->
  b <> marker_byte ->
  strings_Contains (b :: rest) marker = true ->
  snd (colorPrint strings_Trim strings_Contains strings_Split
                  marker marker_byte text colored) = Returns tt
  <-> Forall (fun p => p <> []) (tl (strings_Split (b :: rest) marker)).
Proof.
  intros Htrim Hb Hcontains. unfold colorPrint. rewrite Htrim, Hcontains.
  cbn [negb].
  destruct (strings_Split (b :: rest) marker) as [|first others].
  - cbn [colorPrint_range snd tl]. split; [constructor|reflexivity].
  - cbn [colorPrint_range Nat.eqb tl].
    assert (E : Byte.eqb b marker_byte = false).
    { destruct (Byte.eqb b marker_byte) eqn:E; [|reflexivity].
      apply Byte.byte_dec_bl in E. contradiction. }
    rewrite E. cbn [negb].
    pose proof (colorPrint_range_coded_returns (b :: rest) colored others 0)
      as Hiff.
    destruct (colorPrint_range marker_byte (b :: rest) colored 1 others)
      as [out r].
    cbn [snd] in Hiff. rewrite <- Hiff.
    destruct r as [[]|]; cbn [snd]; split; intros H;
      try reflexivity; try discriminate H.
Qed.

(** When the trimmed text holds the marker and does not begin with
    [marker_byte], the first part is printed as it is and [colorPrint]
    returns exactly when no later part is empty; an empty part (a marker at
    the end of the text, or two markers in a row) makes it panic, colored or
    not. *)
Theorem colorPrint_returns_iff
        (text : list byte) (colored : bool) (b : byte) (rest : list byte) :
  strings_Trim text [Byte.x0a] = b :: rest ->
  b <> marker_byte ->
  strings_Contains (b :: rest) marker = true ->
  snd (colorPrint strings_Trim strings_Contains strings_Split
                  marker marker_byte text colored) = Returns tt
  <-> Forall (fun p => p <> []) (tl (strings_Split (b :: rest) marker)).
Proof. exact (colorPrint_returns_when text colored b rest). Qed.

(** Without color [colorPrint] never calls [color.Set]; apart from those
    calls it does the same as with color: the same prints and the same
    [color.Unset] calls in the same order, and it panics on the same
    texts. *)
Theorem colorPrint_colored_only_adds_Set (text : list byte) :
  filter (fun o => negb (is_color_Set o))
         (fst (colorPrint strings_Trim strings_Contains strings_Split
                          marker marker_byte text true))
    = fst (colorPrint strings_Trim strings_Contains strings_Split
                      marker marker_byte text false) /\
  snd (colorPrint strings_Trim strings_Contains strings_Split
                  marker marker_byte text true)
    = snd (colorPrint strings_Trim strings_Contains strings_Split
                      marker marker_byte text false) /\
  Forall (fun o => is_color_Set o = false)
         (fst (colorPrint strings_Trim strings_Contains strings_Split
                          marker marker_byte text false)).
Proof.
  unfold colorPrint.
  destruct (negb (strings_Contains (strings_Trim text [Byte.x0a]) marker)).
  - cbn [fst snd filter is_color_Set negb]. repeat split.
    constructor; [reflexivity|constructor].
  - destruct (colorPrint_range_uncolored
                (strings_Trim text [Byte.x0a])
                (strings_Split (strings_Trim text [Byte.x0a]) marker) 0)
      as (Hf & Hr & Hall).
    destruct (colorPrint_range marker_byte (strings_Trim text [Byte.x0a]) true 0 _)
      as [out1 r1].
    destruct (colorPrint_range marker_byte (strings_Trim text [Byte.x0a]) false 0 _)
      as [out2 r2].
    cbn [fst snd] in Hf, Hr, Hall. subst r2.
    destruct r1 as [[]|]; cbn [fst snd].
    + rewrite filter_app, Hf. cbn [filter is_color_Set negb].
      repeat split. apply Forall_app. split; [exact Hall|].
      constructor; [reflexivity|constructor].
    + repeat split; assumption.
Qed.

(** What is left of the text: when the trimmed text holds the marker, does
    not begin with [marker_byte] and splits into a first part and later
    parts that are not empty, the bytes printed are the first part, then
    every later part without its first byte, then a newline. *)
Theorem colorPrint_strips_codes
        (text : list byte) (colored : bool) (b : byte) (rest : list byte)
        (first : list byte) (others : list (list byte)) :
  strings_Trim text [Byte.x0a] = b :: rest ->
  b <> marker_byte ->
  strings_Contains (b :: rest) marker = true ->
  strings_Split (b :: rest) marker = first :: others ->
  Forall (fun p => p <> []) others ->
  colorPrint_shown strings_Trim strings_Contains strings_Split
                   marker marker_byte text colored
    = Returns (first ++ concat (map (skipn 1) others) ++ [Byte.x0a]).
Proof.
  intros Htrim Hb Hcontains Hsplit Hne.
  unfold colorPrint_shown, colorPrint.
  rewrite Htrim, Hcontains, Hsplit. cbn [negb colorPrint_range Nat.eqb].
  assert (E : Byte.eqb b marker_byte = false).
  { destruct (Byte.eqb b marker_byte) eqn:E; [|reflexivity].
    apply Byte.byte_dec_bl in E. contradiction. }
  rewrite E. cbn [negb].
  pose proof (proj2 (colorPrint_range_coded_returns (b :: rest) colored others 0)
                    Hne) as Hret.
  pose proof (colorPrint_range_coded_printed (b :: rest) colored others 0 Hne)
    as Hpr.
  destruct (colorPrint_range marker_byte (b :: rest) colored 1 others)
    as [out r].
  cbn [fst snd] in Hret, Hpr. subst r. cbn [app printed].
  f_equal. f_equal.
  assert (Happ : forall o1 o2, printed (o1 ++ o2) = printed o1 ++ printed o2).
  { induction o1 as [|[s|s|a|] o1 IH]; intros o2; cbn [app printed];
      rewrite ?IH, <- ?app_assoc; reflexivity. }
  rewrite Happ, Hpr. cbn [printed app]. reflexivity.
Qed.

End ColorPrintProperties.

Lemma colorPrint_returns_iff_witness :
  snd (colorPrint TrimCutset ContainsSub SplitOn section_sign section_sign_byte
                  (bytes_of "done" ++ section_sign) true) <> Returns tt.
Proof.
  intros H.
  apply (colorPrint_returns_iff
           TrimCutset ContainsSub SplitOn section_sign section_sign_byte
           (bytes_of "done" ++ section_sign) true
           "d"%byte (bytes_of "one" ++ section_sign)) in H.
  - vm_compute in H. inversion H as [|? ? Hne _]. apply Hne. reflexivity.
  - reflexivity.
  - discriminate.
  - reflexivity.
Defined.

Lemma colorPrint_strips_codes_witness :
  colorPrint_shown TrimCutset ContainsSub SplitOn section_sign section_sign_byte
                   (bytes_of "Set " ++ section_sign ++ bytes_of "athe time"
                    ++ section_sign ++ bytes_of "r to 1000" ++ [Byte.x0a])
                   true
    = Returns (bytes_of "Set "
               ++ concat (map (skipn 1) [bytes_of "athe time";
                                         bytes_of "r to 1000"])
               ++ [Byte.x0a]).
Proof.
  apply (colorPrint_strips_codes
           TrimCutset ContainsSub SplitOn section_sign section_sign_byte
           _ true "S"%byte
           (bytes_of "et " ++ section_sign ++ bytes_of "athe time"
            ++ section_sign ++ bytes_of "r to 1000")).
  - reflexivity.
  - discriminate.
  - reflexivity.
  - reflexivity.
  - repeat constructor; discriminate.
Defined.

(** ** Replies that end the program *)

Section CrashingReplies.

Variable TrimSpace : list byte -> list byte.
Variable bufferSpare : list byte -> list byte.
Variable strings_Trim : list byte -> list byte -> list byte.
Variable strings_Contains : list byte -> list byte -> bool.
Variable strings_Split : list byte -> list byte -> list (list byte).
Variable marker : list byte.
Variable marker_byte : byte.

(** A reply whose text has an empty coded part (a marker at its end, or
    two markers in a row) ends the program: the command goroutine panics in
    [colorPrint], and with no interrupt [interactiveMode] returns nothing. *)
Theorem empty_code_crashes_loop
        (rid : Z) (colored : bool) (input : list byte) (rest : list LineRead)
        (conn : TCPConn)
        (reply_id reply_type : Z) (text : list byte)
        (post : list ReadResult) (b : byte) (text_tail : list byte) :
  is_int32 reply_id -> is_int32 reply_type ->
  (length text < 4096)%nat ->
  hd None (write_results conn) = None ->
  read_results conn
    = mkRead (serialize (mkPacket reply_id reply_type text)) None :: post ->
  strings_Trim text [Byte.x0a] = b :: text_tail ->
  b <> marker_byte ->
  strings_Contains (b :: text_tail) marker = true ->
  In [] (tl (strings_Split (b :: text_tail) marker)) ->
  fst (fst (commandLoop
              TrimSpace bufferSpare
              (colorPrint_shown strings_Trim strings_Contains strings_Split
                                marker marker_byte)
              rid colored ((input, None) :: rest) conn [])) = Crashes /\
  forall err,
    ~ interactiveMode
        TrimSpace bufferSpare
        (colorPrint_shown strings_Trim strings_Contains strings_Split
                          marker marker_byte)
        rid conn colored ((input, None) :: rest) false err.
Proof.
  intros Hid Hty Hlen Hw Hreads Htrim Hb Hcontains Hempty.
  assert (Hloop :
            fst (fst (commandLoop
                        TrimSpace bufferSpare
                        (colorPrint_shown strings_Trim strings_Contains
                                          strings_Split marker marker_byte)
                        rid colored ((input, None) :: rest) conn []))
            = Crashes).
  { rewrite commandLoop_cons. cbv zeta. cbn [is_EOF].
    rewrite (sendPacket_ok _ _ Hw).
    rewrite (receivePacket_one_frame
               _ (serialize (mkPacket reply_id reply_type text)) post);
      [ | exact Hreads | apply serialize_not_nil
        | rewrite length_serialize; cbn [payload]; unfold MAXRECVSIZE; lia ].
    cbn [write_results sent].
    assert (Hn : (length (serialize (mkPacket reply_id reply_type text)) =? 0)%nat
                 = false).
    { apply Nat.eqb_neq. rewrite length_serialize. lia. }
    rewrite Hn.
    rewrite parsePacket_serialize; cbn [requestID packetType payload];
      try assumption; [|change (2 ^ 31) with 2147483648; lia].
    unfold colorPrint_shown.
    pose proof (colorPrint_returns_when
                  strings_Trim strings_Contains strings_Split
                  marker marker_byte text colored b text_tail
                  Htrim Hb Hcontains) as Hiff.
    destruct (colorPrint strings_Trim strings_Contains strings_Split
                         marker marker_byte text colored) as [out [[]|]].
    - cbn [snd] in Hiff. exfalso.
      pose proof (proj1 Hiff eq_refl) as Hall.
      rewrite Forall_forall in Hall. apply (Hall [] Hempty). reflexivity.
    - reflexivity. }
  split; [exact Hloop|].
  intros err Hret. inversion Hret as [Hsig|e He]; subst.
  - discriminate Hsig.
  - rewrite Hloop in He. discriminate He.
Qed.

(** A reply of one to three bytes ends the program as well: it is not
    empty, so the loop parses it, and [parsePacket] panics. *)
Theorem short_reply_crashes_loop
        (colorPrint : list byte -> bool -> outcome (list byte))
        (rid : Z) (colored : bool) (input : list byte) (rest : list LineRead)
        (conn : TCPConn) (data : list byte) (post : list ReadResult) :
  hd None (write_results conn) = None ->
  read_results conn = mkRead data None :: post ->
  data <> [] -> (length data < 4)%nat ->
  fst (fst (commandLoop TrimSpace bufferSpare colorPrint
                        rid colored ((input, None) :: rest) conn []))
    = Crashes.
Proof using TrimSpace bufferSpare.
  clear strings_Trim strings_Contains strings_Split marker marker_byte.
  intros Hw Hreads Hne Hlen.
  rewrite commandLoop_cons. cbv zeta. cbn [is_EOF].
  rewrite (sendPacket_ok _ _ Hw).
  rewrite (receivePacket_one_frame _ data post);
    [ | exact Hreads | exact Hne | unfold MAXRECVSIZE; lia ].
  assert (Hn : (length data =? 0)%nat = false).
  { apply Nat.eqb_neq. destruct data; [congruence|discriminate]. }
  rewrite Hn. rewrite parsePacket_under_4; [reflexivity|exact Hlen].
Qed.

End CrashingReplies.

Lemma empty_code_crashes_loop_witness :
  fst (fst (commandLoop
              TrimSpaceASCII noSpare
              (colorPrint_shown TrimCutset ContainsSub SplitOn
                                section_sign section_sign_byte)
              5 true ((fst (line "list"), None) :: [])
              (incoming [mkRead (serialize
                                   (mkPacket 5 RESPONSETYPE
                                             (bytes_of "done" ++ section_sign)))
                                None])
              [])) = Crashes.
Proof.
  apply (empty_code_crashes_loop
           TrimSpaceASCII noSpare TrimCutset ContainsSub SplitOn
           section_sign section_sign_byte
           5 true (fst (line "list")) []
           (incoming [mkRead (serialize
                                (mkPacket 5 RESPONSETYPE
                                          (bytes_of "done" ++ section_sign)))
                             None])
           5 RESPONSETYPE (bytes_of "done" ++ section_sign) []
           "d"%byte (bytes_of "one" ++ section_sign)).
  - unfold is_int32. lia.
  - unfold is_int32, RESPONSETYPE. lia.
  - vm_compute. lia.
  - reflexivity.
  - reflexivity.
  - reflexivity.
  - discriminate.
  - reflexivity.
  - vm_compute. left. reflexivity.
Defined.

Lemma short_reply_crashes_loop_witness :
  fst (fst (commandLoop TrimSpaceASCII noSpare plainPrint 5 true
                        ((fst (line "list"), None) :: [])
                        (incoming [mkRead [Byte.x0a; Byte.x00] None]) []))
    = Crashes.
Proof.
  apply (short_reply_crashes_loop
           TrimSpaceASCII noSpare plainPrint 5 true (fst (line "list")) []
           (incoming [mkRead [Byte.x0a; Byte.x00] None])
           [Byte.x0a; Byte.x00] []).
  - reflexivity.
  - reflexivity.
  - discriminate.
  - cbn [length]. lia.
Defined.
